(** * aicara-relay: the vault relay (app.py) and the Bastion auditor
      (bastion_cron.py), embedded and verified.

    The development follows the two source files.  [Sha256] is the
    content hasher both files call through [calculate_sha256];
    [Relay] embeds the ingest, retrieval and verification handlers of
    app.py over an explicit world (object store, the two log files,
    the clock and the identifier generator); [Bastion] embeds the hourly
    integrity check.  Theorems come after the definitions. *)

From Stdlib Require Import ZArith Lia Ascii String.
From stdpp Require Import base gmap strings list.

Open Scope Z_scope.

(** Python [bytes]: a sequence of octets. *)
Abbreviation bytes := (list Byte.byte).

Definition byte_val (b : Byte.byte) : Z := Z.of_N (Byte.to_N b).

(* ------------------------------------------------------------------ *)
(** ** hashlib.sha256(...).hexdigest() *)
(* ------------------------------------------------------------------ *)

Module Sha256.

Definition mask32 : Z := 0xFFFFFFFF.
Definition w32 (x : Z) : Z := x mod 2 ^ 32.
Definition add32 (x y : Z) : Z := w32 (x + y).

Definition rotr (n x : Z) : Z :=
    Z.lor (Z.shiftr x n) (w32 (Z.shiftl x (32 - n))).
Definition shr (n x : Z) : Z := Z.shiftr x n.
Definition not32 (x : Z) : Z := Z.lxor x mask32.

Definition Ch (x y z : Z) : Z := Z.lxor (Z.land x y) (Z.land (not32 x) z).
Definition Maj (x y z : Z) : Z :=
    Z.lxor (Z.lxor (Z.land x y) (Z.land x z)) (Z.land y z).
Definition Sigma0 (x : Z) : Z := Z.lxor (Z.lxor (rotr 2 x) (rotr 13 x)) (rotr 22 x).
Definition Sigma1 (x : Z) : Z := Z.lxor (Z.lxor (rotr 6 x) (rotr 11 x)) (rotr 25 x).
Definition sigma0 (x : Z) : Z := Z.lxor (Z.lxor (rotr 7 x) (rotr 18 x)) (shr 3 x).
Definition sigma1 (x : Z) : Z := Z.lxor (Z.lxor (rotr 17 x) (rotr 19 x)) (shr 10 x).

(** The round constants are the first 32 bits of the fractional parts of
      the cube roots of the first 64 primes (FIPS 180-4, 4.2.2). *)
Definition primes : list Z :=
    [ 2; 3; 5; 7; 11; 13; 17; 19; 23; 29; 31; 37; 41; 43; 47; 53;
      59; 61; 67; 71; 73; 79; 83; 89; 97; 101; 103; 107; 109; 113; 127; 131;
      137; 139; 149; 151; 157; 163; 167; 173; 179; 181; 191; 193; 197; 199;
      211; 223; 227; 229; 233; 239; 241; 251; 257; 263; 269; 271; 277; 281;
      283; 293; 307; 311 ].

  (** The integer cube root of [x], found bit by bit from bit [n - 1] down. *)
Fixpoint cube_root (n : nat) (x acc : Z) : Z :=
    match n with
    | O => acc
    | S n' =>
        let c := acc + 2 ^ Z.of_nat n' in
        if c * c * c <=? x then cube_root n' x c else cube_root n' x acc
    end.

Definition K : list Z :=
    Eval vm_compute in
      (fun p => cube_root 36 (p * 2 ^ 96) 0 mod 2 ^ 32) <$> primes.

  (** The eight working variables / the chaining value. *)
Record regs := Regs {
    ra : Z; rb : Z; rc : Z; rd : Z; re : Z; rf : Z; rg : Z; rh : Z }.

Definition H0 : regs :=
    Regs 0x6a09e667 0xbb67ae85 0x3c6ef372 0xa54ff53a
         0x510e527f 0x9b05688c 0x1f83d9ab 0x5be0cd19.

  (** Padding: 0x80, zeros up to 56 mod 64, then the bit length on 64 bits. *)
Fixpoint be_bytes (n : nat) (x : Z) : list Z :=
    match n with
    | O => []
    | S n' => (Z.shiftr x (8 * Z.of_nat n')) mod 256 :: be_bytes n' x
    end.

Definition pad (msg : list Z) : list Z :=
    let len := Z.of_nat (length msg) in
    let zeros := Z.to_nat ((55 - len) mod 64) in
    msg ++ [0x80] ++ repeat 0 zeros ++ be_bytes 8 (8 * len).

Fixpoint be_word (bs : list Z) (acc : Z) : Z :=
    match bs with
    | [] => acc
    | b :: bs' => be_word bs' (acc * 256 + b)
    end.

  (** Cut a list into words of four octets; [n] bounds the number of words. *)
Fixpoint words (n : nat) (bs : list Z) : list Z :=
    match n, bs with
    | S n', _ :: _ => be_word (take 4 bs) 0 :: words n' (drop 4 bs)
    | _, _ => []
    end.

  (** Message schedule: [sched] holds W_{t-1} ... W_0, most recent first. *)
Fixpoint extend (n : nat) (sched : list Z) : list Z :=
    match n with
    | O => sched
    | S n' =>
        let w i := default 0 (sched !! i) in
        let wt := add32 (add32 (sigma1 (w 1%nat)) (w 6%nat))
                        (add32 (sigma0 (w 14%nat)) (w 15%nat)) in
        extend n' (wt :: sched)
    end.

Definition schedule (block : list Z) : list Z :=
    rev (extend 48 (rev (words 16 block))).

Definition round (r : regs) (kw : Z * Z) : regs :=
    let t1 := add32 (add32 (add32 (rh r) (Sigma1 (re r)))
                           (add32 (Ch (re r) (rf r) (rg r)) kw.1)) kw.2 in
    let t2 := add32 (Sigma0 (ra r)) (Maj (ra r) (rb r) (rc r)) in
    Regs (add32 t1 t2) (ra r) (rb r) (rc r) (add32 (rd r) t1) (re r) (rf r) (rg r).

Definition add_regs (x y : regs) : regs :=
    Regs (add32 (ra x) (ra y)) (add32 (rb x) (rb y))
         (add32 (rc x) (rc y)) (add32 (rd x) (rd y))
         (add32 (re x) (re y)) (add32 (rf x) (rf y))
         (add32 (rg x) (rg y)) (add32 (rh x) (rh y)).

Definition compress (h : regs) (block : list Z) : regs :=
    add_regs h (foldl round h (zip K (schedule block))).

Fixpoint blocks (n : nat) (h : regs) (bs : list Z) : regs :=
    match n, bs with
    | S n', _ :: _ => blocks n' (compress h (take 64 bs)) (drop 64 bs)
    | _, _ => h
    end.

Definition digest_regs (content : bytes) : regs :=
    let m := pad (byte_val <$> content) in
    blocks (length m) H0 m.

  (** The digest as one 256-bit number, most significant word first. *)
Definition digest_num (content : bytes) : Z :=
    let r := digest_regs content in
    foldl (fun acc w => acc * 2 ^ 32 + w) 0
          [ra r; rb r; rc r; rd r; re r; rf r; rg r; rh r]
    mod 2 ^ 256.

Definition hex_digit (d : Z) : ascii :=
    default "0"%char (String.get (Z.to_nat d) "0123456789abcdef").

  (** [n] lowercase hexadecimal digits of [x], most significant first. *)
Fixpoint hex (n : nat) (x : Z) : string :=
    match n with
    | O => EmptyString
    | S n' => String (hex_digit (Z.shiftr x (4 * Z.of_nat n') mod 16)) (hex n' x)
    end.

Definition hexdigest (content : bytes) : string := hex 64 (digest_num content).

End Sha256.

(** app.py and bastion_cron.py, lines 43-45. *)
Definition calculate_sha256 (file_content : bytes) : string :=
  Sha256.hexdigest file_content.


(* ------------------------------------------------------------------ *)
(** ** The world the two programs run in *)
(* ------------------------------------------------------------------ *)

(** One line of vault_log.jsonl, as [log_vault_operation] writes it. *)
Inductive operation := ingest | retrieve.
Inductive status := success | failed.

#[global] Instance operation_eq_dec : EqDecision operation.
Proof. solve_decision. Defined.
#[global] Instance status_eq_dec : EqDecision status.
Proof. solve_decision. Defined.

Module Entry.
Record t := Make {
    timestamp : string;
    operation : operation;
    filename : string;
    sha256_hash : string;
    vault_id : string;
    status : status;
    error : option string }.
End Entry.

(** One line of bastion_integrity.jsonl: a per-file check, the summary of
    a run, or the record of a fatal error. *)
Inductive check_status := verified | corrupted | check_failed | check_error.

#[global] Instance check_status_eq_dec : EqDecision check_status.
Proof. solve_decision. Defined.

Module Check.
Record t := Make {
    timestamp : string;
    vault_id : string;
    filename : string;
    status : check_status;
    original_hash : option string;
    current_hash : option string;
    integrity_verified : option bool;
    error : option string }.
End Check.

Module Summary.
Record t := Make {
    timestamp : string;
    total_files : nat;
    verified_files : nat;
    failed_files : nat;
    check_duration_seconds : Z }.
End Summary.

Inductive integrity_line :=
| integrity_verification (c : Check.t)
| integrity_summary (s : Summary.t)
| fatal_error (timestamp : string) (error : string).

(** A reading of [datetime.utcnow()]: its [isoformat()] and its position
    on the time line in microseconds, which is what subtraction uses. *)
Record datetime := { isoformat : string; micros : Z }.

(** How the Spaces endpoint answers a client call: it serves it, it
    rejects it with [ClientError], or the call dies with an exception of
    another class. *)
Inductive endpoint := Serving | Rejecting | Failing (msg : string).

Record world := World {
  objects : gmap string bytes;              (* bucket aicara-vault *)
  endpoint_state : endpoint;
  vault_log : option (list Entry.t);        (* None: no such file *)
  integrity_log : option (list integrity_line);
  utcnow : nat -> datetime;                 (* successive clock readings *)
  clock_reads : nat;
  uuid4 : nat -> string;                    (* successive str(uuid.uuid4()) *)
  uuid_draws : nat }.

Definition set_objects (o : gmap string bytes) (w : world) : world :=
  World o (endpoint_state w) (vault_log w) (integrity_log w)
        (utcnow w) (clock_reads w) (uuid4 w) (uuid_draws w).
Definition set_endpoint (e : endpoint) (w : world) : world :=
  World (objects w) e (vault_log w) (integrity_log w)
        (utcnow w) (clock_reads w) (uuid4 w) (uuid_draws w).
Definition set_vault_log (l : option (list Entry.t)) (w : world) : world :=
  World (objects w) (endpoint_state w) l (integrity_log w)
        (utcnow w) (clock_reads w) (uuid4 w) (uuid_draws w).
Definition set_integrity_log (l : option (list integrity_line)) (w : world) : world :=
  World (objects w) (endpoint_state w) (vault_log w) l
        (utcnow w) (clock_reads w) (uuid4 w) (uuid_draws w).
Definition tick (w : world) : world :=
  World (objects w) (endpoint_state w) (vault_log w) (integrity_log w)
        (utcnow w) (S (clock_reads w)) (uuid4 w) (uuid_draws w).
Definition drawn (w : world) : world :=
  World (objects w) (endpoint_state w) (vault_log w) (integrity_log w)
        (utcnow w) (clock_reads w) (uuid4 w) (S (uuid_draws w)).

(** *** Exceptions and the monad of a Python function body *)

Inductive exn :=
| ClientError
| OtherException (msg : string).

Inductive outcome (A : Type) :=
| Returns (a : A)
| Raises (e : exn).
Arguments Returns {A} a.
Arguments Raises {A} e.

Definition M (A : Type) : Type := world -> outcome A * world.

#[global] Instance M_ret : MRet M := fun A a w => (Returns a, w).
#[global] Instance M_bind : MBind M := fun A B f m w =>
  match m w with
  | (Returns a, w') => f a w'
  | (Raises e, w') => (Raises e, w')
  end.

Definition raise {A} (e : exn) : M A := fun w => (Raises e, w).

(** [try: body except ClientError: handler] *)
Definition except_ClientError {A} (body handler : M A) : M A := fun w =>
  match body w with
  | (Raises ClientError, w') => handler w'
  | r => r
  end.

(** [try: body except Exception as e: handler(str(e))] *)
Definition exn_str (e : exn) : string :=
  match e with
  | ClientError => "ClientError"
  | OtherException msg => msg
  end.

Definition except_Exception {A} (body : M A) (handler : string -> M A) : M A :=
  fun w =>
    match body w with
    | (Raises e, w') => handler (exn_str e) w'
    | r => r
    end.

(** *** Primitive effects *)

Definition now : M datetime := fun w => (Returns (utcnow w (clock_reads w)), tick w).

Definition new_uuid : M string := fun w => (Returns (uuid4 w (uuid_draws w)), drawn w).

(** [f'consciousness/{vault_id}/{filename}'] *)
Definition object_key (vault_id filename : string) : string :=
  "consciousness/" +:+ vault_id +:+ "/" +:+ filename.

Definition put_object (key : string) (body : bytes) : M unit := fun w =>
  match endpoint_state w with
  | Serving => (Returns tt, set_objects (<[key := body]> (objects w)) w)
  | Rejecting => (Raises ClientError, w)
  | Failing msg => (Raises (OtherException msg), w)
  end.

(** A missing key is answered with [ClientError] (NoSuchKey). *)
Definition get_object (key : string) : M bytes := fun w =>
  match endpoint_state w with
  | Serving =>
      match objects w !! key with
      | Some body => (Returns body, w)
      | None => (Raises ClientError, w)
      end
  | Rejecting => (Raises ClientError, w)
  | Failing msg => (Raises (OtherException msg), w)
  end.

Definition head_bucket : M unit := fun w =>
  match endpoint_state w with
  | Serving => (Returns tt, w)
  | Rejecting => (Raises ClientError, w)
  | Failing msg => (Raises (OtherException msg), w)
  end.

(** [open(path, 'a')] creates the file when it is missing. *)
Definition append_line {A} (line : A) (file : option (list A)) : option (list A) :=
  Some (default [] file ++ [line]).

Definition append_vault_log (e : Entry.t) : M unit := fun w =>
  (Returns tt, set_vault_log (append_line e (vault_log w)) w).

Definition append_integrity_log (l : integrity_line) : M unit := fun w =>
  (Returns tt, set_integrity_log (append_line l (integrity_log w)) w).

Definition read_vault_log : M (option (list Entry.t)) := fun w =>
  (Returns (vault_log w), w).

Definition read_integrity_log : M (option (list integrity_line)) := fun w =>
  (Returns (integrity_log w), w).

Definition write_integrity_log (lines : list integrity_line) : M unit := fun w =>
  (Returns tt, set_integrity_log (Some lines) w).

(** Python truth value of a string that may be [None]. *)
Definition truthy (s : option string) : bool :=
  match s with
  | Some s => negb (bool_decide (s = ""))
  | None => false
  end.

(** [str.lower()] on the ASCII letters. *)
Definition lower_ascii (a : ascii) : ascii :=
  let n := nat_of_ascii a in
  if (65 <=? n)%nat && (n <=? 90)%nat then ascii_of_nat (n + 32) else a.

Fixpoint lower (s : string) : string :=
  match s with
  | EmptyString => EmptyString
  | String a s' => String (lower_ascii a) (lower s')
  end.

(* ------------------------------------------------------------------ *)
(** ** The storage adapter, shared by app.py (65-90) and
       bastion_cron.py (89-99) *)
(* ------------------------------------------------------------------ *)

Definition upload_to_spaces (file_content : bytes) (filename vault_id : string)
  : M bool :=
  except_ClientError
    (put_object (object_key vault_id filename) file_content ;; mret true)
    (mret false).

Definition download_from_spaces (vault_id filename : string) : M (option bytes) :=
  except_ClientError
    (body ← get_object (object_key vault_id filename); mret (Some body))
    (mret None).

(* ------------------------------------------------------------------ *)
(** ** app.py *)
(* ------------------------------------------------------------------ *)

(** The uploaded part of a multipart request: [file.filename] and what
    [file.read()] returns. *)
Module Upload.
Record t := Make { filename : string; content : bytes }.
End Upload.

(** What the ingest handler reads of Flask's [request]: the length of the
    request body in octets and the 'file' part of [request.files], [None]
    when the form has no such part.  (The body of a multipart request is
    longer than the file it carries.) *)
Module Request.
Record t := Make { content_length : N; file : option Upload.t }.
End Request.

(** Line 19: [app.config['MAX_CONTENT_LENGTH']]. *)
Definition MAX_CONTENT_LENGTH : N := 100 * 1024 * 1024.

(** [request.files]: Flask parses the form at the first access and refuses
    a body longer than MAX_CONTENT_LENGTH with RequestEntityTooLarge. *)
Definition request_files (request : Request.t) : M (option Upload.t) :=
  if (MAX_CONTENT_LENGTH <? Request.content_length request)%N
  then raise (OtherException "413 Request Entity Too Large")
  else mret (Request.file request).

Module IngestReply.
Record t := Make {
    vault_id : string;
    filename : string;
    sha256_hash : string;
    file_size : nat;
    timestamp : string }.
End IngestReply.

Module MetadataReply.
Record t := Make {
    vault_id : string;
    filename : string;
    sha256_hash : string;
    timestamp : string;
    status : status }.
End MetadataReply.

Module VerifyReply.
Record t := Make {
    vault_id : string;
    filename : string;
    original_hash : string;
    current_hash : string;
    integrity_verified : bool;
    file_size : nat;
    timestamp : string }.
End VerifyReply.

Inductive body :=
| json_error (error : string)
| json_ingest (r : IngestReply.t)
| json_metadata (r : MetadataReply.t)
| json_verify (r : VerifyReply.t)
| send_file (download_name : string) (data : bytes).

(** A Flask response: the body and the HTTP status code. *)
Definition response : Type := body * nat.

(** Lines 47-63. *)
Definition log_vault_operation (op : operation) (filename file_hash vault_id : string)
    (st : status) (error : option string) : M unit :=
  t ← now;
  append_vault_log
    (Entry.Make (isoformat t) op filename file_hash vault_id st error).

Section Relay.

  (** werkzeug's [secure_filename] and the parser behind [uuid.UUID(s)]
      ([true] when it does not raise [ValueError]) are library code. *)
Variable secure_filename : string -> string.
Variable UUID_parses : string -> bool.

  (** Lines 102-156.  The first access to [request.files] is inside the
      [try], so a body over the size limit is answered by the handler
      of line 154. *)
Definition ingest_consciousness (request : Request.t) : M response :=
    except_Exception
      (files ← request_files request;
       match files with
       | None => mret (json_error "No file provided", 400%nat)
       | Some file =>
           if bool_decide (Upload.filename file = "")
           then mret (json_error "No file selected", 400%nat)
           else
             let original_filename := secure_filename (Upload.filename file) in
             if bool_decide (original_filename = "")
             then mret (json_error "Invalid filename", 400%nat)
             else
               let file_content := Upload.content file in
               let file_size := length file_content in
               let file_hash := calculate_sha256 file_content in
               vault_id ← new_uuid;
               upload_success ← upload_to_spaces file_content original_filename vault_id;
               if negb upload_success
               then
                 log_vault_operation ingest original_filename file_hash vault_id
                                     failed (Some "Upload to Spaces failed") ;;
                 mret (json_error "Failed to store file in vault", 500%nat)
               else
                 log_vault_operation ingest original_filename file_hash vault_id
                                     success None ;;
                 t ← now;
                 mret (json_ingest
                         (IngestReply.Make vault_id original_filename file_hash
                                           file_size (isoformat t)),
                       200%nat)
       end)
      (fun _ => mret (json_error "Internal server error during ingestion", 500%nat)).

  (** The scan of lines 179-188: the first line of the log whose
      vault_id and operation match. *)
Definition metadata_match (vault_id : string) (entry : Entry.t) : bool :=
    bool_decide (Entry.vault_id entry = vault_id)
    && bool_decide (Entry.operation entry = ingest).

  (** Lines 158-217. *)
Definition retrieve_consciousness (vault_id : string)
      (filename_arg metadata_only_arg : option string) : M response :=
    except_Exception
      (if negb (UUID_parses vault_id)
       then mret (json_error "Invalid vault ID format", 400%nat)
       else
         let filename := filename_arg in
         let metadata_only :=
           bool_decide (lower (default "false" metadata_only_arg) = "true") in
         if metadata_only
         then
           f ← read_vault_log;
           match f with
           | None => mret (json_error "Vault log not found", 404%nat)
           | Some lines =>
               match List.find (metadata_match vault_id) lines with
               | Some entry =>
                   mret (json_metadata
                           (MetadataReply.Make vault_id (Entry.filename entry)
                              (Entry.sha256_hash entry) (Entry.timestamp entry)
                              (Entry.status entry)),
                         200%nat)
               | None => mret (json_error "Vault ID not found", 404%nat)
               end
           end
         else if negb (truthy filename)
         then mret (json_error "Filename required for file retrieval", 400%nat)
         else
           let filename := default "" filename in
           file_content ← download_from_spaces vault_id filename;
           match file_content with
           | None =>
               log_vault_operation retrieve filename "" vault_id failed
                                   (Some "File not found in vault") ;;
               mret (json_error "File not found in vault", 404%nat)
           | Some file_content =>
               let file_hash := calculate_sha256 file_content in
               log_vault_operation retrieve filename file_hash vault_id success None ;;
               mret (send_file filename file_content, 200%nat)
           end)
      (fun _ => mret (json_error "Internal server error during retrieval", 500%nat)).

  (** The scan of lines 247-253. *)
Definition verify_match (vault_id filename : string) (entry : Entry.t) : bool :=
    bool_decide (Entry.vault_id entry = vault_id)
    && bool_decide (Entry.filename entry = filename)
    && bool_decide (Entry.operation entry = ingest).

  (** Lines 219-274. *)
Definition verify_consciousness (vault_id : string) (filename_arg : option string)
    : M response :=
    except_Exception
      (if negb (UUID_parses vault_id)
       then mret (json_error "Invalid vault ID format", 400%nat)
       else if negb (truthy filename_arg)
       then mret (json_error "Filename required for verification", 400%nat)
       else
         let filename := default "" filename_arg in
         file_content ← download_from_spaces vault_id filename;
         match file_content with
         | None => mret (json_error "File not found in vault", 404%nat)
         | Some file_content =>
             let current_hash := calculate_sha256 file_content in
             f ← read_vault_log;
             match f with
             | None => mret (json_error "Vault log not found", 404%nat)
             | Some lines =>
                 let original_hash :=
                   Entry.sha256_hash <$> List.find (verify_match vault_id filename) lines in
                 if negb (truthy original_hash)
                 then mret (json_error "Original hash not found in vault log", 404%nat)
                 else
                   let original_hash := default "" original_hash in
                   let integrity_verified :=
                     bool_decide (current_hash = original_hash) in
                   t ← now;
                   mret (json_verify
                           (VerifyReply.Make vault_id filename original_hash
                              current_hash integrity_verified
                              (length file_content) (isoformat t)),
                         200%nat)
             end
         end)
      (fun _ => mret (json_error "Internal server error during verification", 500%nat)).

End Relay.

(* ------------------------------------------------------------------ *)
(** ** bastion_cron.py *)
(* ------------------------------------------------------------------ *)

(** Line 57:
    [original_hash == current_hash if original_hash and current_hash else None] *)
Definition integrity_flag (original_hash current_hash : option string) : option bool :=
  if truthy original_hash && truthy current_hash
  then Some (bool_decide (original_hash = current_hash))
  else None.

(** Lines 47-65.  [original_hash] and [current_hash] default to [None]. *)
Definition log_integrity_check (vault_id filename : string) (st : check_status)
    (original_hash current_hash error : option string) : M unit :=
  t ← now;
  append_integrity_log
    (integrity_verification
       (Check.Make (isoformat t) vault_id filename st original_hash current_hash
          (integrity_flag original_hash current_hash) error)).

(** An element of [vault_files]. *)
Module VaultFile.
Record t := Make {
  vault_id : string;
  filename : string;
  original_hash : string;
  timestamp : string }.
End VaultFile.

Definition is_catalogued (entry : Entry.t) : bool :=
  bool_decide (Entry.operation entry = ingest)
  && bool_decide (Entry.status entry = success).

Definition catalogue (lines : list Entry.t) : list VaultFile.t :=
  (fun entry => VaultFile.Make (Entry.vault_id entry) (Entry.filename entry)
                               (Entry.sha256_hash entry) (Entry.timestamp entry))
    <$> List.filter is_catalogued lines.

(** Lines 67-87: a missing log is an empty catalogue. *)
Definition get_vault_files : M (list VaultFile.t) :=
  f ← read_vault_log;
  mret (catalogue (default [] f)).

(** Lines 101-127. *)
Definition verify_file_integrity (vault_id filename original_hash : string) : M bool :=
  except_Exception
    (file_content ← download_from_spaces vault_id filename;
     match file_content with
     | None =>
         log_integrity_check vault_id filename check_failed (Some original_hash)
                             None (Some "File not found in Spaces") ;;
         mret false
     | Some file_content =>
         let current_hash := calculate_sha256 file_content in
         if bool_decide (current_hash = original_hash)
         then
           log_integrity_check vault_id filename verified (Some original_hash)
                               (Some current_hash) None ;;
           mret true
         else
           log_integrity_check vault_id filename corrupted (Some original_hash)
                               (Some current_hash) (Some "Hash mismatch") ;;
           mret false
     end)
    (fun e =>
       log_integrity_check vault_id filename check_error (Some original_hash)
                           None (Some e) ;;
       mret false).

(** Lines 129-138. *)
Definition check_spaces_connectivity : M bool :=
  except_ClientError (head_bucket ;; mret true) (mret false).

(** The loop of lines 164-174, with its two counters. *)
Fixpoint check_each (vault_files : list VaultFile.t) (counts : nat * nat)
  : M (nat * nat) :=
  match vault_files with
  | [] => mret counts
  | file_info :: rest =>
      ok ← verify_file_integrity (VaultFile.vault_id file_info)
                                 (VaultFile.filename file_info)
                                 (VaultFile.original_hash file_info);
      check_each rest
        (if (ok : bool) then (S (fst counts), snd counts) else (fst counts, S (snd counts)))
  end.

(** Lines 140-201. *)
Definition run_integrity_check : M unit :=
  check_start_time ← now;
  connected ← check_spaces_connectivity;
  if negb connected then mret tt
  else
    vault_files ← get_vault_files;
    if bool_decide (vault_files = []) then mret tt
    else
      counts ← check_each vault_files (0%nat, 0%nat);
      t_end ← now;
      t ← now;
      append_integrity_log
        (integrity_summary
           (Summary.Make (isoformat t) (length vault_files) (fst counts) (snd counts)
                         (micros t_end - micros check_start_time))).

(** [lines[-n:]] *)
Definition last_lines {A} (n : nat) (lines : list A) : list A :=
  drop (length lines - n) lines.

(** Lines 203-219. *)
Definition cleanup_old_logs : M unit :=
  except_Exception
    (f ← read_integrity_log;
     match f with
     | None => mret tt
     | Some lines =>
         if (1000 <? length lines)%nat
         then write_integrity_log (last_lines 1000 lines)
         else mret tt
     end)
    (fun _ => mret tt).

(** Lines 221-246, the script body. *)
Definition main : M unit :=
  except_Exception
    (run_integrity_check ;; cleanup_old_logs)
    (fun e => t ← now; append_integrity_log (fatal_error (isoformat t) e)).

(* ------------------------------------------------------------------ *)
(** ** Concrete worlds for running the model *)
(* ------------------------------------------------------------------ *)

Module Demo.

Definition is_hex (a : ascii) : bool :=
  let n := nat_of_ascii a in
  ((48 <=? n) && (n <=? 57) || (97 <=? n) && (n <=? 102))%nat.

Definition is_safe (a : ascii) : bool :=
  let n := nat_of_ascii a in
  ((48 <=? n) && (n <=? 57) || (65 <=? n) && (n <=? 90)
   || (97 <=? n) && (n <=? 122) || (n =? 45) || (n =? 46) || (n =? 95))%nat.

(** What [str.split()] cuts at: the ASCII characters with [isspace()]. *)
Definition is_space (a : ascii) : bool :=
  let n := nat_of_ascii a in
  ((9 <=? n) && (n <=? 13) || (28 <=? n) && (n <=? 32))%nat.

(** ["_".join(filename.split())]: [started] once a word has begun, [gap]
    when white space was met since the last character of a word. *)
Fixpoint join_words (started gap : bool) (s : list ascii) : list ascii :=
  match s with
  | [] => []
  | a :: s' =>
      if is_space a then join_words started true s'
      else (if started && gap then ["_"%char; a] else [a])
             ++ join_words true false s'
  end.

(** [str.lstrip("._")] *)
Fixpoint lstrip (s : list ascii) : list ascii :=
  match s with
  | [] => []
  | a :: s' =>
      if bool_decide (a = "."%char) || bool_decide (a = "_"%char)
      then lstrip s' else s
  end.

(** werkzeug.utils.secure_filename on a POSIX host: characters outside
    ASCII are dropped (the NFKD step, which can leave a base letter
    behind, is not modelled, so this is exact on ASCII names), '/'
    becomes a space, the words are joined by '_', every character
    outside [A-Za-z0-9_.-] is removed, and dots and underscores are
    stripped from both ends. *)
Definition secure_filename (filename : string) : string :=
  let ascii_only :=
    List.filter (fun a => (nat_of_ascii a <? 128)%nat)
                (list_ascii_of_string filename) in
  let no_sep :=
    (fun a => if bool_decide (a = "/"%char) then " "%char else a) <$> ascii_only in
  let kept := List.filter is_safe (join_words false false no_sep) in
  string_of_list_ascii (rev (lstrip (rev (lstrip kept)))).

(** A stand-in for the UUID parser: the canonical 8-4-4-4-12 lowercase
    form, which is the form [str(uuid.uuid4())] has. *)
Fixpoint canonical_from (i : nat) (s : string) : bool :=
  match s with
  | EmptyString => (i =? 36)%nat
  | String a s' =>
      (if (i =? 8)%nat || (i =? 13)%nat || (i =? 18)%nat || (i =? 23)%nat
       then bool_decide (a = "-"%char) else is_hex a)
      && canonical_from (S i) s'
  end.

Definition canonical_uuid (s : string) : bool := canonical_from 0 s.

Definition clock (n : nat) : datetime :=
  {| isoformat := "2025-01-01T00:00:00." +:+ Sha256.hex 6 (Z.of_nat n);
     micros := Z.of_nat n |}.

Definition ids (n : nat) : string :=
  "3f2b8c1e-5d4a-4e6f-9a7b-" +:+ Sha256.hex 12 (Z.of_nat n).

(** A reachable endpoint, an empty bucket and no log file yet. *)
Definition empty : world := World ∅ Serving None None clock 0 ids 0.

Definition ascii_bytes (s : string) : bytes :=
  (fun a => default Byte.x00 (Byte.of_N (N_of_ascii a))) <$> list_ascii_of_string s.

(** A multipart request carrying [body] as its 'file' part under the
    name [name]; 256 octets stand for the boundaries and part headers. *)
Definition upload (name body : string) : Request.t :=
  Request.Make (N.of_nat (String.length body) + 256)
               (Some (Upload.Make name (ascii_bytes body))).

(** After one ingest of the ten octets "hello12345" as note.txt. *)
Definition stocked : world :=
  (ingest_consciousness secure_filename (upload "note.txt" "hello12345") empty).2.

(** Three files ingested, then the second one deleted from the bucket
    behind the service's back. *)
Definition three_files : world :=
  let w1 := (ingest_consciousness secure_filename (upload "a.txt" "alpha") empty).2 in
  let w2 := (ingest_consciousness secure_filename (upload "b.txt" "beta") w1).2 in
  let w3 := (ingest_consciousness secure_filename (upload "c.txt" "gamma") w2).2 in
  set_objects (delete (object_key (ids 1) "b.txt") (objects w3)) w3.

(** An endpoint that rejects every call. *)
Definition offline : world := set_endpoint Rejecting empty.


End Demo.

(* ------------------------------------------------------------------ *)
(** ** Histories: what can happen to a world *)
(* ------------------------------------------------------------------ *)

Inductive event :=
| Ingest (request : Request.t)
| Retrieve (vault_id : string) (filename metadata_only : option string)
| Verify (vault_id : string) (filename : option string)
| Bastion                                   (* one run of bastion_cron.py *)
| Outside (o : gmap string bytes) (e : endpoint).
    (* the bucket or the endpoint changes behind the service's back *)

Section Histories.

Variable secure_filename : string -> string.
Variable UUID_parses : string -> bool.

Definition step (w : world) (ev : event) : world :=
  match ev with
  | Ingest request => (ingest_consciousness secure_filename request w).2
  | Retrieve v f m => (retrieve_consciousness UUID_parses v f m w).2
  | Verify v f => (verify_consciousness UUID_parses v f w).2
  | Bastion => (main w).2
  | Outside o e => set_endpoint e (set_objects o w)
  end.

Definition run (evs : list event) (w : world) : world := foldl step w evs.

(** Before the first request the audit log is missing, or empty when
    app.py was started as a script (lines 276-280). *)
Definition pristine (w : world) : Prop :=
  vault_log w = None \/ vault_log w = Some [].

Definition reachable (w : world) : Prop :=
  exists w0 evs, pristine w0 /\ w = run evs w0.

End Histories.

(** The lines one step added at the end of the audit log. *)
Definition appended (w w' : world) : list Entry.t :=
  drop (length (default [] (vault_log w))) (default [] (vault_log w')).



(** What the auditor keeps fixed: it reads the bucket and the audit log
    and writes only the integrity trail. *)
Definition audit_frame (w w' : world) : Prop :=
  objects w' = objects w
  /\ endpoint_state w' = endpoint_state w
  /\ vault_log w' = vault_log w
  /\ uuid4 w' = uuid4 w
  /\ uuid_draws w' = uuid_draws w.

(** The record [verify_file_integrity] writes at clock reading [t]. *)
Definition check_line (t : string) (w : world)
    (vault_id filename original_hash : string) : Check.t :=
  let mk st cur err :=
    Check.Make t vault_id filename st (Some original_hash) cur
      (integrity_flag (Some original_hash) cur) err in
  match endpoint_state w with
  | Serving =>
      match objects w !! object_key vault_id filename with
      | Some body =>
          if bool_decide (calculate_sha256 body = original_hash)
          then mk verified (Some (calculate_sha256 body)) None
          else mk corrupted (Some (calculate_sha256 body)) (Some "Hash mismatch")
      | None => mk check_failed None (Some "File not found in Spaces")
      end
  | Rejecting => mk check_failed None (Some "File not found in Spaces")
  | Failing msg => mk check_error None (Some msg)
  end.

Definition check_passes (w : world) (vault_id filename original_hash : string)
  : bool :=
  match endpoint_state w with
  | Serving =>
      match objects w !! object_key vault_id filename with
      | Some body => bool_decide (calculate_sha256 body = original_hash)
      | None => false
      end
  | _ => false
  end.

Definition passes (w : world) (file_info : VaultFile.t) : bool :=
  check_passes w (VaultFile.vault_id file_info) (VaultFile.filename file_info)
               (VaultFile.original_hash file_info).

(** The records one pass of the loop writes over [vault_files], the
    first at clock reading [clock_reads w]. *)
Definition check_lines (w : world) (vault_files : list VaultFile.t) : list Check.t :=
  imap (fun i file_info =>
          check_line (isoformat (utcnow w (clock_reads w + i)%nat)) w
            (VaultFile.vault_id file_info) (VaultFile.filename file_info)
            (VaultFile.original_hash file_info))
       vault_files.

(** What the service itself writes as an ingest record: a filename that
    is not empty and the digest of some content. *)
Definition service_written (e : Entry.t) : Prop :=
  Entry.operation e = ingest ->
  Entry.filename e <> "" /\ exists c, Entry.sha256_hash e = calculate_sha256 c.

(** app.py, lines 276-280: before serving, the script creates the audit
    log when it does not exist.  (Opening with 'w' happens only in that
    case, so an existing log is not truncated.) *)
Definition startup : M unit := fun w =>
  match vault_log w with
  | None => (Returns tt, set_vault_log (Some []) w)
  | Some _ => (Returns tt, w)
  end.

(** The vault ids of the ingest records of a log, in log order. *)
Definition ingest_ids (lines : list Entry.t) : list string :=
  Entry.vault_id
    <$> List.filter (fun e => bool_decide (Entry.operation e = ingest)) lines.

(** *** Contents numbered by a natural number, for counting arguments *)

Definition byte_of_N (n : N) : Byte.byte := default Byte.x00 (Byte.of_N n).

(** The [k] low octets of [x], least significant first. *)
Fixpoint le_bytes (k : nat) (x : N) : bytes :=
  match k with
  | O => []
  | S k' => byte_of_N (x mod 256)%N :: le_bytes k' (x / 256)%N
  end.

Fixpoint le_value (bs : bytes) : N :=
  match bs with
  | [] => 0%N
  | b :: bs' => (Byte.to_N b + 256 * le_value bs')%N
  end.

(** The sentence of the specification on tamper detection, read with
    every benefit of doubt: the identifier parses, and it was never
    used in the audit log before. *)
Definition tamper_detection_as_stated : Prop :=
  forall (secure_filename : string -> string) (UUID_parses : string -> bool)
         (w w1 : world) (n : N) (name : string) (c c' : bytes) (r : IngestReply.t),
    ingest_consciousness secure_filename (Request.Make n (Some (Upload.Make name c))) w
      = (Returns (json_ingest r, 200%nat), w1) ->
    UUID_parses (IngestReply.vault_id r) = true ->
    Forall (fun e => Entry.vault_id e <> IngestReply.vault_id r)
           (default [] (vault_log w)) ->
    c' <> c ->
    exists (v : VerifyReply.t) (w2 : world),
      verify_consciousness UUID_parses (IngestReply.vault_id r)
        (Some (IngestReply.filename r))
        (set_objects
           (<[object_key (IngestReply.vault_id r) (IngestReply.filename r) := c']>
              (objects w1)) w1)
        = (Returns (json_verify v, 200%nat), w2)
      /\ VerifyReply.integrity_verified v = false
      /\ VerifyReply.current_hash v <> VerifyReply.original_hash v.

Arguments calculate_sha256 : simpl never.

(* ================================================================== *)
(** * Theorems *)
(* ================================================================== *)

(** ** The content hasher *)

Lemma hex_length n x : String.length (Sha256.hex n x) = n.
Proof. induction n as [|n IH]; simpl; [done | by rewrite IH]. Qed.

Lemma calculate_sha256_length c : String.length (calculate_sha256 c) = 64%nat.
Proof. apply hex_length. Qed.

Lemma calculate_sha256_nonempty c : calculate_sha256 c <> "".
Proof.
  intros H. pose proof (calculate_sha256_length c) as L.
  rewrite H in L. discriminate L.
Qed.

Lemma digest_num_bound c : 0 <= Sha256.digest_num c < 2 ^ 256.
Proof. unfold Sha256.digest_num. apply Z.mod_pos_bound. lia. Qed.

Lemma digest_num_hexdigest c c' :
  Sha256.digest_num c = Sha256.digest_num c' ->
  calculate_sha256 c = calculate_sha256 c'.
Proof. unfold calculate_sha256, Sha256.hexdigest. by intros ->. Qed.

(** ** The storage adapter *)

Ltac unfold_M :=
  unfold except_Exception, except_ClientError, mbind, M_bind, mret, M_ret,
         log_vault_operation, log_integrity_check, append_vault_log,
         append_integrity_log, read_vault_log, read_integrity_log,
         write_integrity_log, now, new_uuid, raise in *.

Lemma download_from_spaces_spec v f w :
  download_from_spaces v f w =
  match endpoint_state w with
  | Serving => (Returns (objects w !! object_key v f), w)
  | Rejecting => (Returns None, w)
  | Failing msg => (Raises (OtherException msg), w)
  end.
Proof.
  unfold download_from_spaces, get_object. unfold_M.
  destruct (endpoint_state w); [destruct (objects w !! _) | ..]; reflexivity.
Qed.

Lemma upload_to_spaces_spec c f v w :
  upload_to_spaces c f v w =
  match endpoint_state w with
  | Serving => (Returns true, set_objects (<[object_key v f := c]> (objects w)) w)
  | Rejecting => (Returns false, w)
  | Failing msg => (Raises (OtherException msg), w)
  end.
Proof.
  unfold upload_to_spaces, put_object. unfold_M.
  destruct (endpoint_state w); reflexivity.
Qed.

Lemma truthy_Some s : truthy (Some s) = true <-> s <> "".
Proof.
  unfold truthy. destruct (decide (s = "")) as [->|Hn].
  - simpl. split; [discriminate | congruence].
  - rewrite bool_decide_eq_false_2 by done. simpl. tauto.
Qed.

(** ** Verification leaves every file alone *)

(** C4 (amended).  [verify_consciousness] appends nothing: whatever the
    arguments and whatever it answers, the audit log, the integrity
    trail and the bucket are the same after the call as before it.
    Ingest and retrieval are the events the audit log captures. *)
Theorem verify_appends_nothing (UUID_parses : string -> bool) (vault_id : string)
    (filename : option string) (w : world) :
  let w' := (verify_consciousness UUID_parses vault_id filename w).2 in
  vault_log w' = vault_log w
  /\ integrity_log w' = integrity_log w
  /\ objects w' = objects w.
Proof.
  unfold verify_consciousness. unfold_M.
  destruct (UUID_parses vault_id); simpl; [|done].
  destruct (truthy filename); simpl; [|done].
  rewrite download_from_spaces_spec.
  destruct (endpoint_state w); simpl; try done.
  destruct (objects w !! _); simpl; [|done].
  destruct (vault_log w) as [lines|] eqn:E; simpl; [|by rewrite E].
  destruct (truthy _); simpl; by rewrite E.
Qed.

(** ** The auditor: one file *)

Lemma audit_frame_refl w : audit_frame w w.
Proof. by repeat split. Qed.

Lemma audit_frame_trans w1 w2 w3 :
  audit_frame w1 w2 -> audit_frame w2 w3 -> audit_frame w1 w3.
Proof.
  intros (?&?&?&?&?) (?&?&?&?&?). repeat split; congruence.
Qed.

Lemma verify_file_integrity_spec v f h w :
  verify_file_integrity v f h w =
  (Returns (check_passes w v f h),
   set_integrity_log
     (append_line
        (integrity_verification
           (check_line (isoformat (utcnow w (clock_reads w))) w v f h))
        (integrity_log w))
     (tick w)).
Proof.
  unfold verify_file_integrity, check_line, check_passes. unfold_M.
  rewrite download_from_spaces_spec.
  destruct (endpoint_state w) eqn:E; simpl; try reflexivity.
  destruct (objects w !! object_key v f) as [body|]; simpl; [|reflexivity].
  destruct (bool_decide (calculate_sha256 body = h)); reflexivity.
Qed.

Lemma verify_file_integrity_frame v f h w :
  audit_frame w (verify_file_integrity v f h w).2.
Proof. rewrite verify_file_integrity_spec. by repeat split. Qed.


Lemma integrity_flag_Some o c b :
  integrity_flag o c = Some b ->
  truthy o = true /\ truthy c = true /\ b = bool_decide (o = c).
Proof.
  unfold integrity_flag. destruct (truthy o), (truthy c); simpl; try done.
  by intros [= <-].
Qed.

Lemma integrity_flag_truthy o c :
  truthy o = true -> truthy c = true ->
  integrity_flag o c = Some (bool_decide (o = c)).
Proof. unfold integrity_flag. by intros -> ->. Qed.

Lemma integrity_flag_absent o : integrity_flag o None = None.
Proof. unfold integrity_flag. simpl. by rewrite andb_false_r. Qed.

Lemma check_line_flag t w v f h :
  Check.integrity_verified (check_line t w v f h)
  = integrity_flag (Check.original_hash (check_line t w v f h))
                   (Check.current_hash (check_line t w v f h)).
Proof.
  unfold check_line.
  destruct (endpoint_state w); [destruct (objects w !! _) as [body|];
    [destruct (bool_decide (calculate_sha256 body = h))|] |..]; reflexivity.
Qed.

Lemma check_line_no_current t w v f h :
  Check.status (check_line t w v f h) = check_failed
  \/ Check.status (check_line t w v f h) = check_error ->
  Check.current_hash (check_line t w v f h) = None.
Proof.
  unfold check_line.
  destruct (endpoint_state w); [destruct (objects w !! _) as [body|];
    [destruct (bool_decide (calculate_sha256 body = h))|] |..]; simpl;
    try reflexivity; intros [H|H]; discriminate H.
Qed.

(** C10.  Every call of [verify_file_integrity] returns and appends
    exactly one integrity check record.  In that record
    integrity_verified is a boolean only when the original and the
    current hash are both present and non-empty, and then it equals
    (original_hash == current_hash).  Whenever the fetch of the blob
    fails (the bucket holds nothing under the key, or the endpoint
    refuses the call) the check returns False and the record has
    status 'failed', no current hash and integrity_verified null;
    whenever the fetch dies with another exception the check returns
    False and the record has status 'error', the exception's text as
    error, no current hash and integrity_verified null; in neither
    case is integrity_verified false.  When the blob is fetched the
    record carries its digest as current hash. *)
Theorem integrity_verified_null_on_failure (vault_id filename original_hash : string)
    (w : world) :
  exists (ok : bool) (c : Check.t) (w' : world),
    verify_file_integrity vault_id filename original_hash w = (Returns ok, w')
    /\ integrity_log w'
       = Some (default [] (integrity_log w) ++ [integrity_verification c])
    /\ (forall b, Check.integrity_verified c = Some b ->
          truthy (Check.original_hash c) = true
          /\ truthy (Check.current_hash c) = true
          /\ b = bool_decide (Check.original_hash c = Check.current_hash c))
    /\ (truthy (Check.original_hash c) = true ->
        truthy (Check.current_hash c) = true ->
        Check.integrity_verified c
        = Some (bool_decide (Check.original_hash c = Check.current_hash c)))
    /\ (Check.status c = check_failed \/ Check.status c = check_error ->
        Check.current_hash c = None /\ Check.integrity_verified c = None)
    /\ (endpoint_state w = Rejecting
        \/ (endpoint_state w = Serving
            /\ objects w !! object_key vault_id filename = None) ->
        ok = false
        /\ Check.status c = check_failed
        /\ Check.current_hash c = None
        /\ Check.integrity_verified c = None)
    /\ (forall msg,
          endpoint_state w = Failing msg ->
          ok = false
          /\ Check.status c = check_error
          /\ Check.error c = Some msg
          /\ Check.current_hash c = None
          /\ Check.integrity_verified c = None)
    /\ (forall body,
          endpoint_state w = Serving ->
          objects w !! object_key vault_id filename = Some body ->
          Check.original_hash c = Some original_hash
          /\ Check.current_hash c = Some (calculate_sha256 body)
          /\ Check.status c <> check_failed /\ Check.status c <> check_error).
Proof.
  exists (check_passes w vault_id filename original_hash),
         (check_line (isoformat (utcnow w (clock_reads w))) w
                     vault_id filename original_hash).
  eexists.
  split; [apply verify_file_integrity_spec|].
  split; [reflexivity|].
  rewrite check_line_flag.
  split; [intros b; apply integrity_flag_Some|].
  split; [apply integrity_flag_truthy|].
  split.
  { intros H. apply check_line_no_current in H. rewrite H.
    split; [reflexivity | apply integrity_flag_absent]. }
  unfold check_passes, check_line.
  split; [|split].
  - intros [->|[-> ->]]; cbn [Check.status Check.current_hash Check.original_hash];
      rewrite integrity_flag_absent; by repeat split.
  - intros msg ->. cbn [Check.status Check.current_hash Check.original_hash
                        Check.error].
    rewrite integrity_flag_absent. by repeat split.
  - intros body -> ->.
    destruct (bool_decide (calculate_sha256 body = original_hash));
      cbn [Check.status Check.current_hash Check.original_hash];
      by repeat split.
Qed.

(** A blob deleted from the bucket: the record is 'failed' with a null
    flag. *)
Lemma integrity_verified_null_on_failure_witness :
  exists (c : Check.t) (w' : world),
    verify_file_integrity (Demo.ids 1) "b.txt"
      (calculate_sha256 (Demo.ascii_bytes "beta")) Demo.three_files
    = (Returns false, w')
    /\ integrity_log w' = Some [integrity_verification c]
    /\ Check.status c = check_failed
    /\ Check.integrity_verified c = None.
Proof.
  destruct (integrity_verified_null_on_failure (Demo.ids 1) "b.txt"
              (calculate_sha256 (Demo.ascii_bytes "beta")) Demo.three_files)
    as (ok & c & w' & Hv & Hl & _ & _ & _ & Hmiss & _).
  destruct Hmiss as (-> & Hs & _ & Hi).
  - right. split; vm_compute; reflexivity.
  - exists c, w'. split; [exact Hv|]. split; [exact Hl|]. by split.
Defined.

(** ** Log retention *)

Lemma last_lines_suffix {A} (n : nat) (lines : list A) :
  (n <= length lines)%nat ->
  lines = take (length lines - n) lines ++ last_lines n lines
  /\ length (last_lines n lines) = n.
Proof.
  intros Hn. unfold last_lines. split.
  - by rewrite take_drop.
  - rewrite length_drop. lia.
Qed.

(** C6.  When the integrity trail holds more than 1000 records,
    [cleanup_old_logs] returns and rewrites the trail to exactly its
    last 1000 records: the trail before is [dropped ++ kept] with
    [kept] of length 1000, so the survivors are the most recent ones in
    their original order and the oldest are the ones dropped. *)
Theorem cleanup_keeps_most_recent_1000 (w : world) (lines : list integrity_line) :
  integrity_log w = Some lines ->
  (1000 < length lines)%nat ->
  exists dropped kept : list integrity_line,
    lines = dropped ++ kept
    /\ length kept = 1000%nat
    /\ length dropped = (length lines - 1000)%nat
    /\ cleanup_old_logs w = (Returns tt, set_integrity_log (Some kept) w).
Proof.
  intros Hlog Hlen.
  exists (take (length lines - 1000) lines), (last_lines 1000 lines).
  destruct (last_lines_suffix 1000 lines) as [Hsplit Hkept]; [lia|].
  split; [exact Hsplit|]. split; [exact Hkept|].
  split; [rewrite length_take; lia|].
  unfold cleanup_old_logs. unfold_M. rewrite Hlog.
  apply Nat.ltb_lt in Hlen. by rewrite Hlen.
Qed.

(** A trail at or under the cap, or no trail at all, is left as it is. *)
Lemma cleanup_small_log w :
  (length (default [] (integrity_log w)) <= 1000)%nat ->
  cleanup_old_logs w = (Returns tt, w).
Proof.
  intros Hlen. unfold cleanup_old_logs. unfold_M.
  destruct (integrity_log w) as [lines|]; [|reflexivity].
  simpl in Hlen. apply Nat.ltb_ge in Hlen. by rewrite Hlen.
Qed.

Lemma cleanup_frame w : audit_frame w (cleanup_old_logs w).2.
Proof.
  unfold cleanup_old_logs. unfold_M.
  destruct (integrity_log w) as [lines|]; [|apply audit_frame_refl].
  destruct (1000 <? length lines)%nat; by repeat split.
Qed.

(** ** The auditor: a whole run *)

Lemma check_line_frame t w w' v f h :
  audit_frame w w' -> check_line t w' v f h = check_line t w v f h.
Proof. intros (Ho&He&_). unfold check_line. by rewrite Ho, He. Qed.

Lemma check_passes_frame w w' v f h :
  audit_frame w w' -> check_passes w' v f h = check_passes w v f h.
Proof. intros (Ho&He&_). unfold check_passes. by rewrite Ho, He. Qed.

Lemma check_each_spec (vault_files : list VaultFile.t) :
  forall (w : world) (a b : nat),
  exists w',
    check_each vault_files (a, b) w
    = (Returns ((a + length (List.filter (passes w) vault_files))%nat,
                (b + length (List.filter (fun x => negb (passes w x)) vault_files))%nat),
       w')
    /\ audit_frame w w'
    /\ utcnow w' = utcnow w
    /\ clock_reads w' = (clock_reads w + length vault_files)%nat
    /\ default [] (integrity_log w')
       = default [] (integrity_log w)
         ++ (integrity_verification <$> check_lines w vault_files).
Proof.
  induction vault_files as [|x rest IH]; intros w a b.
  - exists w. simpl. unfold_M. rewrite !Nat.add_0_r, app_nil_r.
    repeat split; reflexivity.
  - cbn [check_each]. unfold mbind, M_bind.
    rewrite verify_file_integrity_spec.
    set (w1 := set_integrity_log _ (tick w)).
    assert (F1 : audit_frame w w1) by (by repeat split).
    destruct (IH w1 (if passes w x then S a else a)
                    (if passes w x then b else S b)) as (w' & Heq & F & Hu & Hc & Hl).
    exists w'. split.
    { fold (passes w x). destruct (passes w x) eqn:P; simpl fst; simpl snd;
        rewrite Heq; f_equal; f_equal.
      all: assert (E : forall y, passes w1 y = passes w y)
             by (intros y; apply check_passes_frame, F1).
      all: rewrite (List.filter_ext _ _ E).
      all: rewrite (List.filter_ext (fun y => negb (passes w1 y))
                                    (fun y => negb (passes w y)))
             by (intros y; by rewrite E).
      all: simpl List.filter; rewrite P; simpl; f_equal; lia. }
    split; [exact (audit_frame_trans _ _ _ F1 F)|].
    split; [rewrite Hu; reflexivity|].
    split; [rewrite Hc; simpl; lia|].
    rewrite Hl. subst w1. simpl. rewrite <- app_assoc. f_equal. simpl.
    rewrite Nat.add_0_r. f_equal.
    apply (f_equal (fmap integrity_verification)).
    unfold check_lines. apply imap_ext. intros i y _. simpl.
    rewrite (check_line_frame _ w); [|by repeat split].
    do 4 f_equal. lia.
Qed.


Lemma probe_spec w :
  endpoint_state w = Serving -> check_spaces_connectivity w = (Returns true, w).
Proof.
  intros H. unfold check_spaces_connectivity, head_bucket. unfold_M. by rewrite H.
Qed.











Lemma cleanup_keeps_most_recent_1000_witness :
  exists dropped kept : list integrity_line,
    repeat (fatal_error "t" "e") 1200 = dropped ++ kept
    /\ length kept = 1000%nat
    /\ length dropped = 200%nat.
Proof.
  destruct (cleanup_keeps_most_recent_1000
              (set_integrity_log (Some (repeat (fatal_error "t" "e") 1200)) Demo.empty)
              (repeat (fatal_error "t" "e") 1200))
    as (dropped & kept & H1 & H2 & H3 & _).
  - reflexivity.
  - rewrite repeat_length. lia.
  - exists dropped, kept. rewrite repeat_length in H3. auto.
Defined.

(** C4, counterexample.  The verification of the file ingested in
    [Demo.stocked] reaches its result (integrity verified) and the audit
    log afterwards is the audit log before: no record of the
    verification has been appended. *)
Lemma verification_leaves_no_audit_record :
  exists (v : VerifyReply.t) (w' : world),
    verify_consciousness Demo.canonical_uuid (Demo.ids 0) (Some "note.txt")
                         Demo.stocked
    = (Returns (json_verify v, 200%nat), w')
    /\ VerifyReply.integrity_verified v = true
    /\ vault_log w' = vault_log Demo.stocked
    /\ appended Demo.stocked w' = [].
Proof.
  eexists _, _. split; [vm_compute; reflexivity|].
  split; [reflexivity|]. split; vm_compute; reflexivity.
Qed.

(** ** The handlers of app.py, one call at a time *)

(** A body over the size limit: the handler of line 154 answers, and
    nothing has happened yet. *)
Lemma ingest_too_large sf request w :
  (MAX_CONTENT_LENGTH < Request.content_length request)%N ->
  ingest_consciousness sf request w
  = (Returns (json_error "Internal server error during ingestion", 500%nat), w).
Proof.
  intros H. apply N.ltb_lt in H.
  unfold ingest_consciousness, request_files. unfold_M. by rewrite H.
Qed.

Lemma request_files_within_limit n file w :
  (n <= MAX_CONTENT_LENGTH)%N ->
  request_files (Request.Make n file) w = (Returns file, w).
Proof.
  intros H. apply N.ltb_ge in H. unfold request_files. cbn [Request.content_length].
  by rewrite H.
Qed.

Lemma ingest_spec sf n name c w :
  (n <= MAX_CONTENT_LENGTH)%N -> name <> "" -> sf name <> "" ->
  ingest_consciousness sf (Request.Make n (Some (Upload.Make name c))) w =
  let v := uuid4 w (uuid_draws w) in
  let t := isoformat (utcnow w (clock_reads w)) in
  match endpoint_state w with
  | Serving =>
      (Returns (json_ingest
                  (IngestReply.Make v (sf name) (calculate_sha256 c) (length c)
                     (isoformat (utcnow w (S (clock_reads w))))), 200%nat),
       tick (set_vault_log
               (append_line (Entry.Make t ingest (sf name) (calculate_sha256 c) v
                                        success None) (vault_log w))
               (tick (set_objects (<[object_key v (sf name) := c]> (objects w))
                                  (drawn w)))))
  | Rejecting =>
      (Returns (json_error "Failed to store file in vault", 500%nat),
       set_vault_log
         (append_line (Entry.Make t ingest (sf name) (calculate_sha256 c) v failed
                                  (Some "Upload to Spaces failed")) (vault_log w))
         (tick (drawn w)))
  | Failing _ =>
      (Returns (json_error "Internal server error during ingestion", 500%nat),
       drawn w)
  end.
Proof.
  intros Hlen Hn Hf. unfold ingest_consciousness. unfold mbind, M_bind at 1.
  unfold except_Exception. rewrite request_files_within_limit by done.
  unfold_M. simpl.
  rewrite !bool_decide_eq_false_2 by done.
  rewrite upload_to_spaces_spec. simpl.
  destruct (endpoint_state w); reflexivity.
Qed.

(** The three refusals of lines 110-121. *)
Lemma ingest_refused sf n file w :
  (n <= MAX_CONTENT_LENGTH)%N ->
  ingest_consciousness sf (Request.Make n file) w
  = match file with
    | None => (Returns (json_error "No file provided", 400%nat), w)
    | Some u =>
        if bool_decide (Upload.filename u = "")
        then (Returns (json_error "No file selected", 400%nat), w)
        else if bool_decide (sf (Upload.filename u) = "")
             then (Returns (json_error "Invalid filename", 400%nat), w)
             else ingest_consciousness sf (Request.Make n file) w
    end.
Proof.
  intros Hlen. destruct file as [[name c]|]; cbn [Upload.filename].
  - destruct (bool_decide (name = "")) eqn:E1;
      [|destruct (bool_decide (sf name = "")) eqn:E2; [|reflexivity]];
      unfold ingest_consciousness; unfold mbind, M_bind at 1;
      unfold except_Exception; rewrite request_files_within_limit by done;
      unfold_M; cbn [Upload.filename]; rewrite E1; [reflexivity|].
    by rewrite E2.
  - unfold ingest_consciousness. unfold mbind, M_bind at 1.
    unfold except_Exception. by rewrite request_files_within_limit by done.
Qed.

Lemma retrieve_file_spec up v f mo w :
  up v = true -> lower (default "false" mo) <> "true" -> f <> "" ->
  retrieve_consciousness up v (Some f) mo w =
  let t := isoformat (utcnow w (clock_reads w)) in
  match endpoint_state w with
  | Serving =>
      match objects w !! object_key v f with
      | Some c =>
          (Returns (send_file f c, 200%nat),
           set_vault_log
             (append_line (Entry.Make t retrieve f (calculate_sha256 c) v success None)
                          (vault_log w)) (tick w))
      | None =>
          (Returns (json_error "File not found in vault", 404%nat),
           set_vault_log
             (append_line (Entry.Make t retrieve f "" v failed
                                      (Some "File not found in vault"))
                          (vault_log w)) (tick w))
      end
  | Rejecting =>
      (Returns (json_error "File not found in vault", 404%nat),
       set_vault_log
         (append_line (Entry.Make t retrieve f "" v failed
                                  (Some "File not found in vault"))
                      (vault_log w)) (tick w))
  | Failing _ =>
      (Returns (json_error "Internal server error during retrieval", 500%nat), w)
  end.
Proof.
  intros Hv Hm Hf. unfold retrieve_consciousness. unfold_M. rewrite Hv. simpl.
  rewrite (bool_decide_eq_false_2 _ Hm).
  rewrite (bool_decide_eq_false_2 _ Hf). simpl.
  rewrite download_from_spaces_spec.
  destruct (endpoint_state w); [destruct (objects w !! _)|..]; reflexivity.
Qed.

Lemma appended_app w w' l :
  vault_log w' = Some (default [] (vault_log w) ++ l) -> appended w w' = l.
Proof.
  intros H. unfold appended. rewrite H. simpl. by rewrite drop_app_length.
Qed.

Lemma appended_same w w' : vault_log w' = vault_log w -> appended w w' = [].
Proof. intros H. unfold appended. rewrite H. apply drop_all. Qed.

Lemma verify_consciousness_frame up v f w :
  vault_log (verify_consciousness up v f w).2 = vault_log w
  /\ objects (verify_consciousness up v f w).2 = objects w.
Proof.
  unfold verify_consciousness. unfold_M.
  destruct (up v); simpl; [|done].
  destruct (truthy f); simpl; [|done].
  rewrite download_from_spaces_spec.
  destruct (endpoint_state w); simpl; try done.
  destruct (objects w !! _); simpl; [|done].
  destruct (vault_log w) as [lines|] eqn:E; simpl; [|by rewrite E].
  destruct (truthy _); simpl; by rewrite E.
Qed.

Lemma run_integrity_check_frame w : audit_frame w (run_integrity_check w).2.
Proof.
  unfold run_integrity_check, get_vault_files, check_spaces_connectivity, head_bucket.
  unfold_M. simpl.
  destruct (endpoint_state w) eqn:E; simpl; try by repeat split.
  destruct (bool_decide _); simpl; [by repeat split|].
  destruct (check_each_spec (catalogue (default [] (vault_log w))) (tick w) 0 0)
    as (w1 & Heq & F & _).
  rewrite Heq. simpl. destruct F as (?&?&?&?&?). by repeat split.
Qed.

Lemma main_frame w : audit_frame w (main w).2.
Proof.
  unfold main. unfold except_Exception, mbind, M_bind.
  pose proof (run_integrity_check_frame w) as F.
  destruct (run_integrity_check w) as [[[]|e] w1]; simpl in *.
  - pose proof (cleanup_frame w1) as F2.
    destruct (cleanup_old_logs w1) as [[[]|e] w2]; simpl in *.
    + exact (audit_frame_trans _ _ _ F F2).
    + unfold_M. simpl. destruct (audit_frame_trans _ _ _ F F2) as (?&?&?&?&?).
      by repeat split.
  - unfold_M. simpl. destruct F as (?&?&?&?&?). by repeat split.
Qed.

(** What a retrieval does to the audit log and the bucket: it never
    touches the bucket, and it appends nothing or one [retrieve] record. *)
Lemma retrieve_consciousness_log up v f mo w :
  let w' := (retrieve_consciousness up v f mo w).2 in
  objects w' = objects w
  /\ (vault_log w' = vault_log w
      \/ exists e, vault_log w' = Some (default [] (vault_log w) ++ [e])
                   /\ Entry.operation e = retrieve).
Proof.
  unfold retrieve_consciousness. unfold_M.
  destruct (up v); simpl; [|by auto].
  destruct (bool_decide (lower _ = "true")); simpl.
  { destruct (vault_log w) as [lines|] eqn:E; simpl; [|by rewrite E; auto].
    destruct (List.find _ lines); simpl; rewrite E; auto. }
  destruct (truthy f); simpl; [|by auto].
  rewrite download_from_spaces_spec.
  destruct (endpoint_state w); simpl; [destruct (objects w !! _)|..]; simpl;
    (split; [done|]); eauto.
Qed.

(** The ways an ingest request can go before anything is drawn. *)
Lemma ingest_cases sf request w :
  ingest_consciousness sf request w
  = (Returns (json_error "Internal server error during ingestion", 500%nat), w)
  \/ (exists msg,
        ingest_consciousness sf request w = (Returns (json_error msg, 400%nat), w))
  \/ exists n name c,
       request = Request.Make n (Some (Upload.Make name c))
       /\ (n <= MAX_CONTENT_LENGTH)%N /\ name <> "" /\ sf name <> "".
Proof.
  destruct request as [n file].
  destruct (N.lt_ge_cases MAX_CONTENT_LENGTH n) as [Hbig|Hlen].
  { left. by apply ingest_too_large. }
  right. rewrite ingest_refused by done.
  destruct file as [[name c]|]; [|left; by eexists].
  cbn [Upload.filename].
  destruct (decide (name = "")) as [->|Hn]; [left; by eexists|].
  rewrite (bool_decide_eq_false_2 _ Hn).
  destruct (decide (sf name = "")) as [He|Hf].
  { left. rewrite (bool_decide_eq_true_2 _ He). by eexists. }
  right. by exists n, name, c.
Qed.

(** What an ingest does to the audit log and the bucket. *)
Lemma ingest_consciousness_log sf request w :
  let w' := (ingest_consciousness sf request w).2 in
  (vault_log w' = vault_log w /\ objects w' = objects w)
  \/ exists n name c t,
       request = Request.Make n (Some (Upload.Make name c))
       /\ (n <= MAX_CONTENT_LENGTH)%N /\ name <> "" /\ sf name <> ""
       /\ ((vault_log w'
            = Some (default [] (vault_log w)
                    ++ [Entry.Make t ingest (sf name) (calculate_sha256 c)
                          (uuid4 w (uuid_draws w)) success None])
            /\ objects w'
               = <[object_key (uuid4 w (uuid_draws w)) (sf name) := c]> (objects w))
           \/ (vault_log w'
               = Some (default [] (vault_log w)
                       ++ [Entry.Make t ingest (sf name) (calculate_sha256 c)
                             (uuid4 w (uuid_draws w)) failed
                             (Some "Upload to Spaces failed")])
               /\ objects w' = objects w)).
Proof.
  destruct (ingest_cases sf request w)
    as [H|[[msg H]|(n & name & c & -> & Hlen & Hn & Hf)]];
    [left; by rewrite H..|].
  cbv zeta. rewrite ingest_spec by done. cbv zeta.
  destruct (endpoint_state w); simpl.
  - right. exists n, name, c. eexists. repeat split; try done. left. done.
  - right. exists n, name, c. eexists. repeat split; try done. right. done.
  - by left.
Qed.

(** ** Ingest *)

(** C5 (amended).  Whatever one step of the service's history does.  If
    it is an ingest that passes the checks of the request and whose
    [put_object] fails, the bucket is left as it was, and then: when
    the failure is a ClientError the call answers 500 'Failed to store
    file in vault' and appends exactly one record, an ingest record
    with status failed for the vault id drawn for that call; when it
    is any other exception the call answers 500 'Internal server error
    during ingestion' and appends no record at all.  And every ingest
    record with status success that the step appends names a key under
    which the bucket then holds a blob whose digest is the recorded
    one. *)
Theorem failed_put_outcomes (secure_filename : string -> string)
    (UUID_parses : string -> bool) (w : world) (ev : event) :
  let w' := step secure_filename UUID_parses w ev in
  (forall n name c e,
      ev = Ingest (Request.Make n (Some (Upload.Make name c))) ->
      (n <= MAX_CONTENT_LENGTH)%N -> name <> "" -> secure_filename name <> "" ->
      (put_object (object_key (uuid4 w (uuid_draws w)) (secure_filename name)) c
                  (drawn w)).1 = Raises e ->
      objects w' = objects w
      /\ match e with
         | ClientError =>
             (ingest_consciousness secure_filename
                (Request.Make n (Some (Upload.Make name c))) w).1
             = Returns (json_error "Failed to store file in vault", 500%nat)
             /\ appended w w'
                = [Entry.Make (isoformat (utcnow w (clock_reads w))) ingest
                     (secure_filename name) (calculate_sha256 c)
                     (uuid4 w (uuid_draws w)) failed
                     (Some "Upload to Spaces failed")]
         | OtherException _ =>
             (ingest_consciousness secure_filename
                (Request.Make n (Some (Upload.Make name c))) w).1
             = Returns (json_error "Internal server error during ingestion", 500%nat)
             /\ appended w w' = []
         end)
  /\ (forall e,
        e ∈ appended w w' ->
        Entry.operation e = ingest -> Entry.status e = success ->
        exists c,
          objects w' !! object_key (Entry.vault_id e) (Entry.filename e) = Some c
          /\ Entry.sha256_hash e = calculate_sha256 c).
Proof.
  cbv zeta. split.
  - intros n name c e -> Hlen Hn Hf Hput. cbn [step].
    rewrite ingest_spec by done. cbv zeta.
    unfold put_object in Hput.
    change (endpoint_state (drawn w)) with (endpoint_state w) in Hput.
    destruct (endpoint_state w) as [| |msg]; cbn [fst snd] in *;
      [discriminate Hput | injection Hput as <- | injection Hput as <-].
    + split; [reflexivity|]. split; [reflexivity|]. by apply appended_app.
    + split; [reflexivity|]. split; [reflexivity|]. by apply appended_same.
  - intros e He Hop Hst. destruct ev as [request|v f m|v f| |o en]; cbn [step] in He.
    + destruct (ingest_consciousness_log secure_filename request w)
        as [[Hl _]|(n & name & c & t & -> & Hlen & Hn & Hf & [[Hl Ho]|[Hl Ho]])].
      * rewrite (appended_same _ _ Hl) in He. by apply elem_of_nil in He.
      * rewrite (appended_app _ _ _ Hl) in He.
        apply list_elem_of_singleton in He as ->. cbn [step Entry.vault_id Entry.filename
                                                        Entry.sha256_hash].
        exists c. split; [|reflexivity]. rewrite Ho. apply lookup_insert_eq.
      * rewrite (appended_app _ _ _ Hl) in He.
        apply list_elem_of_singleton in He as ->. discriminate Hst.
    + destruct (retrieve_consciousness_log UUID_parses v f m w)
        as [_ [Hl|(e' & Hl & Hop')]].
      * rewrite (appended_same _ _ Hl) in He. by apply elem_of_nil in He.
      * rewrite (appended_app _ _ _ Hl) in He.
        apply list_elem_of_singleton in He as ->. congruence.
    + destruct (verify_consciousness_frame UUID_parses v f w) as [Hl _].
      rewrite (appended_same _ _ Hl) in He. by apply elem_of_nil in He.
    + destruct (main_frame w) as (_&_&Hl&_).
      rewrite (appended_same _ _ Hl) in He. by apply elem_of_nil in He.
    + rewrite appended_same in He by done. by apply elem_of_nil in He.
Qed.

(** An ingest at an endpoint that refuses the put with a ClientError. *)
Lemma failed_put_outcomes_witness :
  exists e,
    appended Demo.offline
      (step Demo.secure_filename Demo.canonical_uuid Demo.offline
            (Ingest (Demo.upload "note.txt" "hello12345"))) = [e]
    /\ Entry.status e = failed
    /\ Entry.vault_id e = Demo.ids 0
    /\ objects (step Demo.secure_filename Demo.canonical_uuid Demo.offline
                     (Ingest (Demo.upload "note.txt" "hello12345"))) = ∅.
Proof.
  destruct (failed_put_outcomes Demo.secure_filename Demo.canonical_uuid Demo.offline
              (Ingest (Demo.upload "note.txt" "hello12345"))) as [H _].
  destruct (H 266%N "note.txt" (Demo.ascii_bytes "hello12345") ClientError)
    as (Ho & _ & Ha).
  - reflexivity.
  - vm_compute. discriminate.
  - discriminate.
  - vm_compute. discriminate.
  - reflexivity.
  - eexists. split; [exact Ha|].
    split; [reflexivity|]. split; [reflexivity|]. exact Ho.
Defined.

(** C5, counterexample.  The endpoint is unreachable and the put dies
    with an exception that is not a ClientError (a timeout): the put
    has failed, the caller is told 'Internal server error during
    ingestion', not a storage error, and no record with status failed,
    indeed no record at all, is written to the audit log. *)
Lemma put_crash_appends_no_record :
  let w := set_endpoint (Failing "timed out") Demo.empty in
  let answer :=
    ingest_consciousness Demo.secure_filename
                         (Demo.upload "note.txt" "hello12345") w in
  (put_object (object_key (Demo.ids 0) "note.txt")
              (Demo.ascii_bytes "hello12345") (drawn w)).1
  = Raises (OtherException "timed out")
  /\ answer.1 = Returns (json_error "Internal server error during ingestion", 500%nat)
  /\ vault_log answer.2 = None
  /\ appended w answer.2 = [].
Proof.
  cbv zeta. split; [reflexivity|].
  split; [vm_compute; reflexivity|]. split; vm_compute; reflexivity.
Qed.

(** *** Blobs stay where they are *)

Lemma append_inj_length (a a' b b' : string) :
  String.length a = String.length a' -> a +:+ b = a' +:+ b' -> a = a' /\ b = b'.
Proof.
  revert a'. induction a as [|x a IH]; intros [|x' a'] Hlen H;
    try discriminate Hlen.
  - by split.
  - simpl in H. injection H as -> H. injection Hlen as Hlen.
    destruct (IH a' Hlen H) as [-> ->]. by split.
Qed.

Lemma object_key_vault_id v v' f f' :
  String.length v = String.length v' -> object_key v f = object_key v' f' -> v = v'.
Proof.
  intros Hlen H. unfold object_key in H.
  apply append_inj_length in H as [_ H]; [|reflexivity].
  by apply append_inj_length in H as [-> _].
Qed.

(** Retrieval and verification leave the bucket, the endpoint and the id
    generator alone. *)
Lemma readers_frame up v f m w :
  let w1 := (retrieve_consciousness up v f m w).2 in
  let w2 := (verify_consciousness up v f w).2 in
  (objects w1 = objects w /\ endpoint_state w1 = endpoint_state w
   /\ uuid4 w1 = uuid4 w /\ uuid_draws w1 = uuid_draws w)
  /\ (objects w2 = objects w /\ endpoint_state w2 = endpoint_state w
      /\ uuid4 w2 = uuid4 w /\ uuid_draws w2 = uuid_draws w).
Proof.
  cbv zeta. split.
  - unfold retrieve_consciousness. unfold_M.
    destruct (up v); simpl; [|done].
    destruct (bool_decide (lower _ = "true")); simpl.
    { destruct (vault_log w) as [lines|] eqn:E; simpl; [|done].
      by destruct (List.find _ lines). }
    destruct (truthy f); simpl; [|done].
    rewrite download_from_spaces_spec.
    by destruct (endpoint_state w) eqn:Es; simpl; [destruct (objects w !! _)|..].
  - unfold verify_consciousness. unfold_M.
    destruct (up v); simpl; [|done].
    destruct (truthy f); simpl; [|done].
    rewrite download_from_spaces_spec.
    destruct (endpoint_state w) eqn:Es; simpl; try done.
    destruct (objects w !! _); simpl; [|done].
    destruct (vault_log w) as [lines|] eqn:E; simpl; [|done].
    by destruct (truthy _).
Qed.

(** One step of a history and the blob under a key [k]: the generator is
    only advanced, and the blob is still there afterwards unless the
    step is an ingest that stores under [k] itself, with the id it
    draws. *)
Lemma step_keeps_blob sf up w ev k c :
  objects w !! k = Some c ->
  match ev with Outside o _ => o !! k = Some c | _ => True end ->
  uuid4 (step sf up w ev) = uuid4 w
  /\ (uuid_draws w <= uuid_draws (step sf up w ev))%nat
  /\ (objects (step sf up w ev) !! k = Some c
      \/ ((uuid_draws w < uuid_draws (step sf up w ev))%nat
          /\ exists f', k = object_key (uuid4 w (uuid_draws w)) f')).
Proof.
  intros Hk Hout. destruct ev as [request|v f m|v f| |o en]; cbn [step].
  - destruct (ingest_cases sf request w)
      as [H|[[msg H]|(n & name & c' & -> & Hlen & Hn & Hf)]];
      [rewrite H; by auto..|].
    rewrite ingest_spec by done. cbv zeta.
    destruct (endpoint_state w); cbn [snd];
      cbn [uuid4 uuid_draws objects tick set_vault_log set_objects drawn];
      (split; [reflexivity|]); (split; [lia|]); [|by left..].
    destruct (decide (k = object_key (uuid4 w (uuid_draws w)) (sf name)))
      as [->|Hne].
    + right. split; [lia | by eexists].
    + left. by rewrite lookup_insert_ne.
  - destruct (readers_frame up v f m w) as [(-> & _ & -> & ->) _]. auto.
  - destruct (readers_frame up v f None w) as [_ (-> & _ & -> & ->)]. auto.
  - destruct (main_frame w) as (-> & _ & _ & -> & ->). auto.
  - auto.
Qed.

Lemma step_draws_mono sf up w ev :
  (uuid_draws w <= uuid_draws (step sf up w ev))%nat.
Proof.
  destruct ev as [request|v f m|v f| |o en]; cbn [step].
  - destruct (ingest_cases sf request w)
      as [H|[[msg H]|(n & name & c' & -> & Hlen & Hn & Hf)]];
      [by rewrite H..|].
    rewrite ingest_spec by done. cbv zeta.
    destruct (endpoint_state w); simpl; lia.
  - by destruct (readers_frame up v f m w) as [(_ & _ & _ & ->) _].
  - by destruct (readers_frame up v f None w) as [_ (_ & _ & _ & ->)].
  - by destruct (main_frame w) as (_ & _ & _ & _ & ->).
  - done.
Qed.

(** A blob survives a history in which nobody outside takes it away and
    no later ingest draws the id of its key again. *)
Lemma run_keeps_blob sf up v f c (evs : list event) :
  forall w,
  objects w !! object_key v f = Some c ->
  Forall (fun ev => match ev with
                    | Outside o _ => o !! object_key v f = Some c
                    | _ => True
                    end) evs ->
  (forall i, (uuid_draws w <= i < uuid_draws (run sf up evs w))%nat ->
             uuid4 w i <> v /\ String.length (uuid4 w i) = String.length v) ->
  objects (run sf up evs w) !! object_key v f = Some c.
Proof.
  intros w Hk.
  enough (H : Forall (fun ev => match ev with
                                | Outside o _ => o !! object_key v f = Some c
                                | _ => True
                                end) evs ->
              (forall i, (uuid_draws w <= i < uuid_draws (run sf up evs w))%nat ->
                         uuid4 w i <> v
                         /\ String.length (uuid4 w i) = String.length v) ->
              objects (run sf up evs w) !! object_key v f = Some c
              /\ uuid4 (run sf up evs w) = uuid4 w
              /\ (uuid_draws w <= uuid_draws (run sf up evs w))%nat)
    by (intros H1 H2; by destruct (H H1 H2)).
  induction evs as [|ev evs IH] using rev_ind; intros Hevs Hids.
  - simpl. auto.
  - rewrite Forall_app, Forall_singleton in Hevs. destruct Hevs as [Hevs Hev].
    unfold run in *. rewrite foldl_app in *. cbn [foldl] in *.
    set (w' := foldl (step sf up) w evs) in *.
    pose proof (step_draws_mono sf up w' ev) as Hmono.
    destruct IH as (Hk' & Hu' & Hle'); [exact Hevs| |].
    { intros i Hi. apply Hids. lia. }
    destruct (step_keeps_blob sf up w' ev (object_key v f) c Hk' Hev)
      as (Hu & Hle & Hob).
    split; [|split; [congruence | lia]].
    destruct Hob as [Hob|[Hlt [f' Hf']]]; [exact Hob|].
    exfalso. destruct (Hids (uuid_draws w')) as [Hne Hlen]; [lia|].
    rewrite Hu' in Hf'. apply Hne. symmetry.
    by apply (object_key_vault_id _ _ f f').
Qed.

(** C2.  Round trip.  An ingest of content [c] within the size limit,
    under an upload name whose sanitized form [f] is not empty, at a
    serving endpoint, answers 200 with the drawn vault id and [f].
    After any history that follows (further ingests, also of the same
    name, retrievals, verifications, auditor runs, changes of the
    bucket that leave this blob in place), as long as the ids drawn
    in between are other ids of the same length, retrieval with that
    vault id and [f] at a serving endpoint answers 200 with a file
    whose bytes are exactly [c], under the name [f]. *)
Theorem ingest_then_retrieve_round_trip (secure_filename : string -> string)
    (UUID_parses : string -> bool) (w : world) (n : N) (name f : string)
    (c : bytes) (evs : list event) (metadata_only : option string) :
  let request := Request.Make n (Some (Upload.Make name c)) in
  let vault_id := uuid4 w (uuid_draws w) in
  let w1 := (ingest_consciousness secure_filename request w).2 in
  let w2 := run secure_filename UUID_parses evs w1 in
  (n <= MAX_CONTENT_LENGTH)%N ->
  name <> "" -> secure_filename name = f -> f <> "" ->
  endpoint_state w = Serving ->
  UUID_parses vault_id = true ->
  Forall (fun ev => match ev with
                    | Outside o _ => o !! object_key vault_id f = Some c
                    | _ => True
                    end) evs ->
  (forall i, (uuid_draws w < i < uuid_draws w2)%nat ->
             uuid4 w i <> vault_id
             /\ String.length (uuid4 w i) = String.length vault_id) ->
  endpoint_state w2 = Serving ->
  lower (default "false" metadata_only) <> "true" ->
  exists (r : IngestReply.t) (w3 : world),
    ingest_consciousness secure_filename request w
    = (Returns (json_ingest r, 200%nat), w1)
    /\ IngestReply.filename r = f
    /\ IngestReply.vault_id r = vault_id
    /\ retrieve_consciousness UUID_parses (IngestReply.vault_id r)
         (Some (IngestReply.filename r)) metadata_only w2
       = (Returns (send_file f c, 200%nat), w3).
Proof.
  cbv zeta. intros Hlen Hn <- Hf Hs Hu Hevs Hids Hs2 Hm.
  rewrite ingest_spec in * by done. cbv zeta in *. rewrite Hs in *.
  cbn [fst snd] in *.
  eexists _, _. split; [reflexivity|]. split; [reflexivity|].
  split; [reflexivity|].
  cbn [IngestReply.vault_id IngestReply.filename].
  rewrite retrieve_file_spec by done. cbv zeta. rewrite Hs2.
  rewrite (run_keeps_blob secure_filename UUID_parses
             (uuid4 w (uuid_draws w)) (secure_filename name) c evs);
    [reflexivity | apply lookup_insert_eq | exact Hevs |].
  intros i Hi. apply Hids. cbn [uuid_draws uuid4 tick set_vault_log set_objects drawn]
                             in Hi. lia.
Qed.

(** The upload 'my note.txt', then a second upload under the same name, a
    retrieval of the second and a run of the auditor: the first content
    is still what its vault id retrieves. *)
Lemma ingest_then_retrieve_round_trip_witness :
  exists w3 : world,
    retrieve_consciousness Demo.canonical_uuid (Demo.ids 0) (Some "my_note.txt") None
      (run Demo.secure_filename Demo.canonical_uuid
           [Ingest (Demo.upload "my note.txt" "other");
            Retrieve (Demo.ids 1) (Some "my_note.txt") None;
            Bastion]
           (ingest_consciousness Demo.secure_filename
              (Demo.upload "my note.txt" "hello12345") Demo.empty).2)
    = (Returns (send_file "my_note.txt" (Demo.ascii_bytes "hello12345"), 200%nat), w3).
Proof.
  destruct (ingest_then_retrieve_round_trip Demo.secure_filename Demo.canonical_uuid
              Demo.empty 266%N "my note.txt" "my_note.txt"
              (Demo.ascii_bytes "hello12345")
              [Ingest (Demo.upload "my note.txt" "other");
               Retrieve (Demo.ids 1) (Some "my_note.txt") None;
               Bastion] None)
    as (r & w3 & Hi & Hf & Hv & Hr).
  - vm_compute. discriminate.
  - discriminate.
  - vm_compute. reflexivity.
  - discriminate.
  - reflexivity.
  - vm_compute. reflexivity.
  - repeat constructor.
  - assert (E : uuid_draws
                  (run Demo.secure_filename Demo.canonical_uuid
                       [Ingest (Demo.upload "my note.txt" "other");
                        Retrieve (Demo.ids 1) (Some "my_note.txt") None;
                        Bastion]
                       (ingest_consciousness Demo.secure_filename
                          (Request.Make 266
                             (Some (Upload.Make "my note.txt"
                                      (Demo.ascii_bytes "hello12345"))))
                          Demo.empty).2) = 2%nat)
      by (vm_compute; reflexivity).
    rewrite E. intros i Hi.
    assert (i = 1%nat) as -> by (cbn in Hi; lia).
    split; [vm_compute; discriminate | vm_compute; reflexivity].
  - vm_compute. reflexivity.
  - vm_compute. discriminate.
  - exists w3. rewrite Hv, Hf in Hr. exact Hr.
Defined.

(** ** Metadata-only retrieval *)

Lemma find_first {A} (p : A -> bool) (before after : list A) (x : A) :
  Forall (fun y => p y = false) before -> p x = true ->
  List.find p (before ++ x :: after) = Some x.
Proof.
  induction 1 as [|y l Hy _ IH]; intros Hx; simpl.
  - by rewrite Hx.
  - rewrite Hy. by apply IH.
Qed.

Lemma find_nowhere {A} (p : A -> bool) (l : list A) :
  Forall (fun y => p y = false) l -> List.find p l = None.
Proof. induction 1 as [|y l Hy _ IH]; simpl; [done | by rewrite Hy]. Qed.

Lemma metadata_match_false v e :
  ~ (Entry.vault_id e = v /\ Entry.operation e = ingest) -> metadata_match v e = false.
Proof.
  intros H. unfold metadata_match.
  destruct (decide (Entry.vault_id e = v)) as [Hv|Hv];
    [|by rewrite (bool_decide_eq_false_2 _ Hv)].
  rewrite (bool_decide_eq_true_2 _ Hv). simpl.
  apply bool_decide_eq_false_2. tauto.
Qed.

(** C3 (amended).  Metadata-only retrieval with a vault id that parses
    never changes the world and answers from the first line of the
    audit log whose vault_id is the requested one and whose operation is
    ingest, whatever the status of that line: 200 with that line's
    filename, digest, timestamp and status.  It answers 404 'Vault ID
    not found' when no line has that vault_id and operation ingest, and
    404 'Vault log not found' when there is no log file. *)
Theorem metadata_of_first_ingest_record (UUID_parses : string -> bool)
    (vault_id : string) (filename metadata_only : option string) (w : world) :
  UUID_parses vault_id = true ->
  lower (default "false" metadata_only) = "true" ->
  let does_not_match (e : Entry.t) :=
    ~ (Entry.vault_id e = vault_id /\ Entry.operation e = ingest) in
  (retrieve_consciousness UUID_parses vault_id filename metadata_only w).2 = w
  /\ (forall before e after,
        vault_log w = Some (before ++ e :: after) ->
        Forall does_not_match before ->
        Entry.vault_id e = vault_id -> Entry.operation e = ingest ->
        (retrieve_consciousness UUID_parses vault_id filename metadata_only w).1
        = Returns (json_metadata
                     (MetadataReply.Make vault_id (Entry.filename e)
                        (Entry.sha256_hash e) (Entry.timestamp e) (Entry.status e)),
                   200%nat))
  /\ (forall lines,
        vault_log w = Some lines -> Forall does_not_match lines ->
        (retrieve_consciousness UUID_parses vault_id filename metadata_only w).1
        = Returns (json_error "Vault ID not found", 404%nat))
  /\ (vault_log w = None ->
      (retrieve_consciousness UUID_parses vault_id filename metadata_only w).1
      = Returns (json_error "Vault log not found", 404%nat)).
Proof.
  intros Hu Hm does_not_match.
  unfold retrieve_consciousness. unfold_M. rewrite Hu.
  rewrite (bool_decide_eq_true_2 _ Hm). cbn [negb].
  split.
  { destruct (vault_log w) as [lines|]; [|reflexivity].
    by destruct (List.find _ lines). }
  split.
  { intros before e after -> Hb Hv Ho.
    rewrite (find_first (metadata_match vault_id) before after e).
    - reflexivity.
    - eapply Forall_impl; [exact Hb|]. intros x. apply metadata_match_false.
    - unfold metadata_match. by rewrite !bool_decide_eq_true_2. }
  split.
  { intros lines -> Hl. rewrite find_nowhere; [reflexivity|].
    eapply Forall_impl; [exact Hl|]. intros x. apply metadata_match_false. }
  by intros ->.
Qed.

(** After an ingest refused by the endpoint the log holds one line, an
    ingest record with status failed, and metadata-only retrieval
    answers 200 from it. *)
Lemma metadata_of_first_ingest_record_witness :
  (retrieve_consciousness Demo.canonical_uuid (Demo.ids 0) None (Some "TRUE")
     (ingest_consciousness Demo.secure_filename (Demo.upload "note.txt" "hello12345")
                           Demo.offline).2).1
  = Returns (json_metadata
               (MetadataReply.Make (Demo.ids 0) "note.txt"
                  (calculate_sha256 (Demo.ascii_bytes "hello12345"))
                  (isoformat (Demo.clock 0)) failed),
             200%nat).
Proof.
  destruct (metadata_of_first_ingest_record Demo.canonical_uuid (Demo.ids 0) None
              (Some "TRUE")
              (ingest_consciousness Demo.secure_filename
                 (Demo.upload "note.txt" "hello12345") Demo.offline).2)
    as (_ & H & _).
  - vm_compute. reflexivity.
  - vm_compute. reflexivity.
  - rewrite (H [] (Entry.Make (isoformat (Demo.clock 0)) ingest "note.txt"
                     (calculate_sha256 (Demo.ascii_bytes "hello12345"))
                     (Demo.ids 0) failed (Some "Upload to Spaces failed")) []).
    + reflexivity.
    + vm_compute. reflexivity.
    + constructor.
    + reflexivity.
    + reflexivity.
Defined.

(** C3, counterexample.  The same world: no line of the audit log is an
    ingest record with status success for the vault id, and yet
    metadata-only retrieval does not answer not-found: it answers 200
    with the metadata of the failed ingest. *)
Lemma metadata_served_from_failed_ingest :
  let w := (ingest_consciousness Demo.secure_filename (Demo.upload "note.txt" "hello12345")
                                 Demo.offline).2 in
  Forall (fun e => ~ (Entry.vault_id e = Demo.ids 0 /\ Entry.operation e = ingest
                      /\ Entry.status e = success))
         (default [] (vault_log w))
  /\ exists r w',
       retrieve_consciousness Demo.canonical_uuid (Demo.ids 0) None (Some "true") w
       = (Returns (json_metadata r, 200%nat), w')
       /\ MetadataReply.status r = failed
       /\ MetadataReply.filename r = "note.txt".
Proof.
  cbv zeta. split.
  - vm_compute. constructor; [|constructor]. intros (_ & _ & H). discriminate H.
  - eexists _, _. split; [vm_compute; reflexivity|]. split; reflexivity.
Qed.

(** ** Verification *)

Lemma find_split {A} (p : A -> bool) (l : list A) (x : A) :
  List.find p l = Some x ->
  exists before after,
    l = before ++ x :: after
    /\ Forall (fun y => p y = false) before /\ p x = true.
Proof.
  induction l as [|y l IH]; simpl; [discriminate|].
  destruct (p y) eqn:Hy.
  - intros [= ->]. exists [], l. repeat split; [constructor | exact Hy].
  - intros H. destruct (IH H) as (before & after & -> & Hb & Hx).
    exists (y :: before), after. repeat split; [by constructor | exact Hx].
Qed.

Lemma find_somewhere {A} (p : A -> bool) (l : list A) (x : A) :
  x ∈ l -> p x = true -> exists y, List.find p l = Some y.
Proof.
  intros Hin Hx. destruct (List.find p l) as [y|] eqn:E; [by exists y|].
  apply list_elem_of_In in Hin.
  pose proof (List.find_none _ _ E _ Hin) as H. congruence.
Qed.

Lemma step_service_written sf up w ev :
  Forall service_written (default [] (vault_log w)) ->
  Forall service_written (default [] (vault_log (step sf up w ev))).
Proof.
  intros H. destruct ev as [file|v f m|v f| |o en]; simpl.
  - destruct (ingest_consciousness_log sf file w)
      as [[-> _]|(n & name & c & t & -> & Hlen & Hn & Hf & [[-> _]|[-> _]])]; [done|..];
      simpl; apply Forall_app; (split; [done|]); apply Forall_singleton;
      intros _; simpl; eauto.
  - destruct (retrieve_consciousness_log up v f m w) as [_ [->|(e & -> & Hop)]];
      [done|].
    simpl. apply Forall_app. split; [done|]. apply Forall_singleton.
    intros Hi. congruence.
  - by destruct (verify_consciousness_frame up v f w) as [-> _].
  - by destruct (main_frame w) as (_&_&->&_).
  - done.
Qed.

Lemma reachable_service_written sf up w :
  reachable sf up w -> Forall service_written (default [] (vault_log w)).
Proof.
  intros (w0 & evs & Hp & ->). induction evs as [|ev evs IH] using rev_ind.
  - simpl. destruct Hp as [Hp|Hp]; rewrite Hp; constructor.
  - unfold run. rewrite foldl_app. simpl. by apply step_service_written.
Qed.

Lemma verify_match_false_iff v f e :
  verify_match v f e = false
  <-> ~ (Entry.vault_id e = v /\ Entry.filename e = f /\ Entry.operation e = ingest).
Proof.
  unfold verify_match. rewrite !andb_false_iff, !bool_decide_eq_false.
  destruct (decide (Entry.vault_id e = v)), (decide (Entry.filename e = f)),
    (decide (Entry.operation e = ingest)); tauto.
Qed.

Lemma verify_match_true_iff v f e :
  verify_match v f e = true
  <-> Entry.vault_id e = v /\ Entry.filename e = f /\ Entry.operation e = ingest.
Proof.
  unfold verify_match. rewrite !andb_true_iff, !bool_decide_eq_true. tauto.
Qed.

(** C1.  In a world the service has reached from a fresh start: when
    the vault id parses, the endpoint serves, the bucket holds
    [content] under the key of (vault_id, filename) and the audit log
    has an ingest record for that vault_id and filename, verification
    answers 200 with the digest recorded in the first such record (the
    first line of the log with that vault_id, that filename and
    operation ingest) as original_hash, the digest of [content] as
    current_hash and integrity_verified = (current_hash ==
    original_hash).  The answer has the same form and the same status
    code whether the two digests agree or not. *)
Theorem verify_reports_both_hashes (secure_filename : string -> string)
    (UUID_parses : string -> bool) (w : world) (vault_id filename : string)
    (content : bytes) (e : Entry.t) :
  reachable secure_filename UUID_parses w ->
  UUID_parses vault_id = true ->
  endpoint_state w = Serving ->
  objects w !! object_key vault_id filename = Some content ->
  e ∈ default [] (vault_log w) ->
  Entry.vault_id e = vault_id -> Entry.filename e = filename ->
  Entry.operation e = ingest ->
  exists (before after : list Entry.t) (first : Entry.t),
    vault_log w = Some (before ++ first :: after)
    /\ Forall (fun x => ~ (Entry.vault_id x = vault_id
                           /\ Entry.filename x = filename
                           /\ Entry.operation x = ingest)) before
    /\ Entry.vault_id first = vault_id
    /\ Entry.filename first = filename
    /\ Entry.operation first = ingest
    /\ verify_consciousness UUID_parses vault_id (Some filename) w
       = (Returns
            (json_verify
               (VerifyReply.Make vault_id filename (Entry.sha256_hash first)
                  (calculate_sha256 content)
                  (bool_decide (calculate_sha256 content = Entry.sha256_hash first))
                  (length content) (isoformat (utcnow w (clock_reads w)))),
             200%nat),
          tick w).
Proof.
  intros Hr Hu Hs Ho Hin Hv Hf Hop.
  pose proof (reachable_service_written _ _ _ Hr) as Hlog.
  destruct (vault_log w) as [lines|] eqn:El; [|by apply elem_of_nil in Hin].
  simpl in Hin, Hlog.
  assert (Hm : verify_match vault_id filename e = true)
    by (by apply verify_match_true_iff).
  destruct (find_somewhere _ _ _ Hin Hm) as (first & Hfind).
  destruct (find_split _ _ _ Hfind) as (before & after & -> & Hb & Hfirst).
  assert (Hw : service_written first).
  { rewrite Forall_app, Forall_cons in Hlog. tauto. }
  apply verify_match_true_iff in Hfirst as (H1 & H2 & H3).
  exists before, after, first.
  split; [reflexivity|].
  split; [eapply Forall_impl; [exact Hb|]; intros x; apply verify_match_false_iff|].
  split; [exact H1|]. split; [exact H2|]. split; [exact H3|].
  destruct (Hw H3) as (Hne & c & Hc).
  unfold verify_consciousness. unfold_M. rewrite Hu. cbn [negb].
  assert (Hfn : filename <> "") by congruence.
  replace (truthy (Some filename)) with true
    by (symmetry; by apply truthy_Some).
  cbn [negb from_option id]. rewrite download_from_spaces_spec, Hs, Ho. cbn [fst snd].
  rewrite El, Hfind. cbn [fmap option_fmap option_map from_option id].
  replace (truthy (Some (Entry.sha256_hash first))) with true.
  2:{ symmetry. apply truthy_Some. rewrite Hc. apply calculate_sha256_nonempty. }
  reflexivity.
Qed.

Lemma verify_reports_both_hashes_witness :
  exists (v : VerifyReply.t) (w' : world),
    verify_consciousness Demo.canonical_uuid (Demo.ids 0) (Some "note.txt")
                         Demo.stocked
    = (Returns (json_verify v, 200%nat), w')
    /\ VerifyReply.original_hash v = calculate_sha256 (Demo.ascii_bytes "hello12345")
    /\ VerifyReply.current_hash v = calculate_sha256 (Demo.ascii_bytes "hello12345").
Proof.
  destruct (verify_reports_both_hashes Demo.secure_filename Demo.canonical_uuid
              Demo.stocked (Demo.ids 0) "note.txt" (Demo.ascii_bytes "hello12345")
              (Entry.Make (isoformat (Demo.clock 0)) ingest "note.txt"
                 (calculate_sha256 (Demo.ascii_bytes "hello12345")) (Demo.ids 0)
                 success None))
    as (before & after & first & Hl & Hb & _ & _ & _ & Hv).
  - exists Demo.empty, [Ingest (Demo.upload "note.txt" "hello12345")].
    split; [by left | reflexivity].
  - vm_compute. reflexivity.
  - vm_compute. reflexivity.
  - vm_compute. reflexivity.
  - vm_compute. constructor.
  - reflexivity.
  - reflexivity.
  - reflexivity.
  - eexists _, _. split; [exact Hv|].
    assert (Hfirst : before = [] /\ Entry.sha256_hash first
                       = calculate_sha256 (Demo.ascii_bytes "hello12345")).
    { assert (Hl' : vault_log Demo.stocked
                    = Some [Entry.Make (isoformat (Demo.clock 0)) ingest "note.txt"
                              (calculate_sha256 (Demo.ascii_bytes "hello12345"))
                              (Demo.ids 0) success None])
        by (vm_compute; reflexivity).
      rewrite Hl' in Hl. injection Hl as Hl.
      destruct before as [|b before].
      - injection Hl as <- _. split; reflexivity.
      - injection Hl as _ Hl. destruct before; discriminate Hl. }
    destruct Hfirst as [_ ->]. split; [reflexivity|]. reflexivity.
Defined.

(** ** Tamper detection *)

Lemma byte_of_N_value (n : N) : (n < 256)%N -> Byte.to_N (byte_of_N n) = n.
Proof.
  intros Hn. unfold byte_of_N.
  destruct (Byte.of_N n) as [b|] eqn:E.
  - simpl. by apply Byte.to_of_N.
  - apply Byte.of_N_None_iff in E. lia.
Qed.

Lemma le_value_le_bytes (k : nat) :
  forall x : N, (x < 256 ^ N.of_nat k)%N -> le_value (le_bytes k x) = x.
Proof.
  induction k as [|k IH]; intros x Hx.
  - simpl in *. lia.
  - cbn [le_bytes le_value].
    rewrite byte_of_N_value by (apply N.mod_lt; lia).
    rewrite IH.
    + rewrite N.add_comm. symmetry. apply N.Div0.div_mod.
    + rewrite Nat2N.inj_succ, N.pow_succ_r' in Hx.
      apply N.Div0.div_lt_upper_bound. lia.
Qed.

(** Bounded search for a decidable property. *)
Lemma bounded_search (P : N -> Prop) (dec : forall n, Decision (P n)) (m : N) :
  (exists i, (i <= m)%N /\ P i) \/ (forall i, (i <= m)%N -> ~ P i).
Proof.
  induction m as [|m IH] using N.peano_ind.
  - destruct (dec 0%N) as [H|H].
    + left. exists 0%N. split; [lia | exact H].
    + right. intros i Hi. assert (i = 0%N) as -> by lia. exact H.
  - destruct IH as [(i & Hi & HP)|IH].
    + left. exists i. split; [lia | exact HP].
    + destruct (dec (N.succ m)) as [H|H].
      * left. exists (N.succ m). split; [lia | exact H].
      * right. intros i Hi.
        destruct (decide (i = N.succ m)) as [->|Hne]; [exact H|].
        apply IH. lia.
Qed.

(** Pigeonhole: [m + 1] numbers below [m] hold a repetition. *)
Lemma pigeonhole (m : N) :
  forall f : N -> N,
    (forall n, (n <= m)%N -> (f n < m)%N) ->
    exists i j, (i < j)%N /\ (j <= m)%N /\ f i = f j.
Proof.
  induction m as [|m IH] using N.peano_ind; intros f Hf.
  - specialize (Hf 0%N). lia.
  - destruct (bounded_search (fun i => f i = f (N.succ m)) _ m)
      as [(i & Hi & Heq)|Hfresh].
    + exists i, (N.succ m). repeat split; [lia | lia | exact Heq].
    + set (v := f (N.succ m)).
      set (g := fun n => if (f n <? v)%N then f n else N.pred (f n)).
      destruct (IH g) as (i & j & Hij & Hj & Hg).
      { intros n Hn. unfold g.
        pose proof (Hf n ltac:(lia)) as H1.
        pose proof (Hf (N.succ m) ltac:(lia)) as H2. fold v in H2.
        pose proof (Hfresh n Hn) as H3. fold v in H3.
        destruct (N.ltb_spec (f n) v); lia. }
      exists i, j. repeat split; [exact Hij | lia |].
      pose proof (Hfresh i ltac:(lia)) as Hi3.
      pose proof (Hfresh j ltac:(lia)) as Hj3. fold v in Hi3, Hj3.
      unfold g in Hg.
      destruct (N.ltb_spec (f i) v), (N.ltb_spec (f j) v); lia.
Qed.

(** Two different contents of 33 octets with the same digest. *)
Lemma digest_collision :
  exists c c' : bytes, c' <> c /\ calculate_sha256 c' = calculate_sha256 c.
Proof.
  destruct (pigeonhole (2 ^ 256)%N
              (fun n => Z.to_N (Sha256.digest_num (le_bytes 33 n))))
    as (i & j & Hij & Hj & Heq).
  { intros n _. pose proof (digest_num_bound (le_bytes 33 n)) as [H0 H1].
    apply N2Z.inj_lt. rewrite Z2N.id by exact H0.
    change (Z.of_N (2 ^ 256)) with (2 ^ 256). exact H1. }
  exists (le_bytes 33 i), (le_bytes 33 j). split.
  - intros E. apply (f_equal le_value) in E.
    assert (B : (2 ^ 256 < 256 ^ N.of_nat 33)%N) by (vm_compute; reflexivity).
    rewrite !le_value_le_bytes in E by lia. lia.
  - apply digest_num_hexdigest.
    pose proof (digest_num_bound (le_bytes 33 i)) as [Hi0 _].
    pose proof (digest_num_bound (le_bytes 33 j)) as [Hj0 _].
    apply Z2N.inj in Heq; [congruence | exact Hi0 | exact Hj0].
Qed.

Lemma ingest_success_inv sf n name c w r w1 :
  ingest_consciousness sf (Request.Make n (Some (Upload.Make name c))) w
  = (Returns (json_ingest r, 200%nat), w1) ->
  (n <= MAX_CONTENT_LENGTH)%N
  /\ name <> "" /\ sf name <> "" /\ endpoint_state w = Serving
  /\ r = IngestReply.Make (uuid4 w (uuid_draws w)) (sf name) (calculate_sha256 c)
           (length c) (isoformat (utcnow w (S (clock_reads w))))
  /\ vault_log w1
     = Some (default [] (vault_log w)
             ++ [Entry.Make (isoformat (utcnow w (clock_reads w))) ingest (sf name)
                   (calculate_sha256 c) (uuid4 w (uuid_draws w)) success None])
  /\ objects w1 = <[object_key (uuid4 w (uuid_draws w)) (sf name) := c]> (objects w)
  /\ endpoint_state w1 = Serving.
Proof.
  intros H.
  destruct (ingest_cases sf (Request.Make n (Some (Upload.Make name c))) w)
    as [E|[[msg E]|(n' & name' & c' & [= <- <- <-] & Hlen & Hn & Hf)]];
    [rewrite E in H; discriminate H..|].
  rewrite ingest_spec in H by done. cbv zeta in H.
  destruct (endpoint_state w) eqn:Es; try discriminate H.
  injection H as <- <-. cbn [vault_log objects endpoint_state tick set_vault_log set_objects drawn append_line].
  by rewrite Es.
Qed.

(** Verification of an entry right after its ingest, with the blob under
    its key replaced by [c']. *)
Lemma verify_after_tamper sf up w w1 n name c c' r :
  ingest_consciousness sf (Request.Make n (Some (Upload.Make name c))) w
  = (Returns (json_ingest r, 200%nat), w1) ->
  up (IngestReply.vault_id r) = true ->
  Forall (fun e => Entry.vault_id e <> IngestReply.vault_id r)
         (default [] (vault_log w)) ->
  let w' := set_objects
              (<[object_key (IngestReply.vault_id r) (IngestReply.filename r) := c']>
                 (objects w1)) w1 in
  verify_consciousness up (IngestReply.vault_id r) (Some (IngestReply.filename r)) w'
  = (Returns
       (json_verify
          (VerifyReply.Make (IngestReply.vault_id r) (IngestReply.filename r)
             (calculate_sha256 c) (calculate_sha256 c')
             (bool_decide (calculate_sha256 c' = calculate_sha256 c))
             (length c') (isoformat (utcnow w1 (clock_reads w1)))),
        200%nat),
     tick w').
Proof.
  intros Hi Hu Hfresh.
  destruct (ingest_success_inv _ _ _ _ _ _ _ Hi)
    as (_ & Hn & Hf & Hs & -> & Hl & Ho & Hs1).
  cbn [IngestReply.vault_id IngestReply.filename] in *.
  unfold verify_consciousness. unfold_M. rewrite Hu. cbn [negb].
  replace (truthy (Some (sf name))) with true by (symmetry; by apply truthy_Some).
  cbn [negb from_option id]. rewrite download_from_spaces_spec.
  cbn [endpoint_state set_objects objects]. rewrite Hs1, lookup_insert_eq.
  cbn [fst snd vault_log set_objects]. rewrite Hl.
  rewrite (find_first _ (default [] (vault_log w)) []); first last.
  { unfold verify_match. cbn [Entry.vault_id Entry.filename Entry.operation].
    by rewrite !bool_decide_eq_true_2. }
  { eapply Forall_impl; [exact Hfresh|]. intros e He. unfold verify_match.
    by rewrite (bool_decide_eq_false_2 _ He). }
  cbn [fmap option_fmap option_map from_option id Entry.sha256_hash].
  replace (truthy (Some (calculate_sha256 c))) with true.
  2:{ symmetry. apply truthy_Some, calculate_sha256_nonempty. }
  reflexivity.
Qed.

(** X25.  app.py, lines 237-270, with 102-156.  After an ingest of [c]
    that answered 200 with a vault id that was in no earlier line of
    the audit log, if the blob under the entry's key is replaced out of
    band by [c'], verification answers 200 with original_hash the
    digest of [c], current_hash the digest of [c'], and
    integrity_verified = false exactly when the two digests differ. *)
Theorem tamper_detected_when_digest_differs (secure_filename : string -> string)
    (UUID_parses : string -> bool) (w w1 : world) (n : N) (name : string)
    (c c' : bytes) (r : IngestReply.t) :
  ingest_consciousness secure_filename (Request.Make n (Some (Upload.Make name c))) w
  = (Returns (json_ingest r, 200%nat), w1) ->
  UUID_parses (IngestReply.vault_id r) = true ->
  Forall (fun e => Entry.vault_id e <> IngestReply.vault_id r)
         (default [] (vault_log w)) ->
  exists (v : VerifyReply.t) (w2 : world),
    verify_consciousness UUID_parses (IngestReply.vault_id r)
      (Some (IngestReply.filename r))
      (set_objects
         (<[object_key (IngestReply.vault_id r) (IngestReply.filename r) := c']>
            (objects w1)) w1)
    = (Returns (json_verify v, 200%nat), w2)
    /\ VerifyReply.original_hash v = calculate_sha256 c
    /\ VerifyReply.current_hash v = calculate_sha256 c'
    /\ (VerifyReply.integrity_verified v = false
        <-> calculate_sha256 c' <> calculate_sha256 c)
    /\ (VerifyReply.integrity_verified v = false
        <-> VerifyReply.current_hash v <> VerifyReply.original_hash v).
Proof.
  intros Hi Hu Hfresh. eexists _, _.
  split; [exact (verify_after_tamper _ _ _ _ _ _ _ c' _ Hi Hu Hfresh)|].
  cbn [VerifyReply.original_hash VerifyReply.current_hash
       VerifyReply.integrity_verified].
  split; [reflexivity|]. split; [reflexivity|].
  split; apply bool_decide_eq_false.
Qed.

(** The blob of [Demo.stocked] replaced by "hello12346": detected. *)
Lemma tamper_detected_when_digest_differs_witness :
  exists (v : VerifyReply.t) (w2 : world),
    verify_consciousness Demo.canonical_uuid (Demo.ids 0) (Some "note.txt")
      (set_objects
         (<[object_key (Demo.ids 0) "note.txt" := Demo.ascii_bytes "hello12346"]>
            (objects Demo.stocked)) Demo.stocked)
    = (Returns (json_verify v, 200%nat), w2)
    /\ VerifyReply.integrity_verified v = false.
Proof.
  destruct (tamper_detected_when_digest_differs Demo.secure_filename Demo.canonical_uuid
              Demo.empty Demo.stocked 266%N "note.txt"
              (Demo.ascii_bytes "hello12345") (Demo.ascii_bytes "hello12346")
              (IngestReply.Make (Demo.ids 0) "note.txt"
                 (calculate_sha256 (Demo.ascii_bytes "hello12345")) 10
                 (isoformat (Demo.clock 1))))
    as (v & w2 & Hv & _ & _ & Hd & _).
  - vm_compute. reflexivity.
  - vm_compute. reflexivity.
  - constructor.
  - exists v, w2. split; [exact Hv|]. apply Hd. vm_compute. discriminate.
Defined.

(** Read for all contents, the sentence on tamper detection would make
    the digest injective, and it is not: among the 2^256 + 1 first
    contents of 33 octets two have the same digest, and replacing one
    by the other after ingest would go undetected.  No such pair is
    known: what can be stated and proved of the code is the theorem
    above. *)
Lemma tamper_can_go_undetected : ~ tamper_detection_as_stated.
Proof.
  intros H. destruct digest_collision as (c & c' & Hne & Heq).
  assert (Hi : exists r w1,
             ingest_consciousness Demo.secure_filename
               (Request.Make 300 (Some (Upload.Make "f" c))) Demo.empty
             = (Returns (json_ingest r, 200%nat), w1)
             /\ IngestReply.vault_id r = Demo.ids 0).
  { eexists _, _.
    rewrite ingest_spec; [|vm_compute; discriminate|discriminate|discriminate].
    split; reflexivity. }
  destruct Hi as (r & w1 & Hi & Hid).
  assert (Hu : Demo.canonical_uuid (IngestReply.vault_id r) = true)
    by (rewrite Hid; vm_compute; reflexivity).
  assert (Hfresh : Forall (fun e => Entry.vault_id e <> IngestReply.vault_id r)
                          (default [] (vault_log Demo.empty))) by constructor.
  destruct (H Demo.secure_filename Demo.canonical_uuid Demo.empty w1 300%N "f"
              c c' r Hi Hu Hfresh Hne) as (v & w2 & Hv & _ & Hdiff).
  rewrite (verify_after_tamper _ _ _ _ _ _ _ c' _ Hi Hu Hfresh) in Hv.
  apply (f_equal (fun x => match x.1 with
                          | Returns (json_verify v, _) => Some v
                          | _ => None
                          end)) in Hv.
  cbn [fst] in Hv. apply (inj Some) in Hv. subst v.
  cbn [VerifyReply.original_hash VerifyReply.current_hash] in Hdiff. congruence.
Qed.

(* ================================================================== *)
(** * Further properties of the two programs *)
(* ================================================================== *)

(** ** Request validation *)

(** X1.  app.py, lines 110-121.  An ingest request within the size limit
    with no file part, with an empty file name, or with a file name
    that [secure_filename] empties is answered 400 with the message of
    its case and changes nothing: no id is drawn, nothing is stored,
    nothing is logged.  A request that passes the three checks is
    never answered 400, whatever its size. *)
Theorem ingest_refuses_without_effect (secure_filename : string -> string)
    (w : world) :
  (forall n,
      (n <= MAX_CONTENT_LENGTH)%N ->
      ingest_consciousness secure_filename (Request.Make n None) w
      = (Returns (json_error "No file provided", 400%nat), w))
  /\ (forall n c,
        (n <= MAX_CONTENT_LENGTH)%N ->
        ingest_consciousness secure_filename
          (Request.Make n (Some (Upload.Make "" c))) w
        = (Returns (json_error "No file selected", 400%nat), w))
  /\ (forall n name c,
        (n <= MAX_CONTENT_LENGTH)%N ->
        name <> "" -> secure_filename name = "" ->
        ingest_consciousness secure_filename
          (Request.Make n (Some (Upload.Make name c))) w
        = (Returns (json_error "Invalid filename", 400%nat), w))
  /\ (forall n name c b,
        name <> "" -> secure_filename name <> "" ->
        (ingest_consciousness secure_filename
           (Request.Make n (Some (Upload.Make name c))) w).1
        <> Returns (b, 400%nat)).
Proof.
  split; [intros n Hlen; by rewrite ingest_refused|].
  split; [intros n c Hlen; by rewrite ingest_refused|].
  split.
  - intros n name c Hlen Hn He. rewrite ingest_refused by done.
    cbn [Upload.filename].
    by rewrite (bool_decide_eq_false_2 _ Hn), (bool_decide_eq_true_2 _ He).
  - intros n name c b Hn Hf.
    destruct (N.lt_ge_cases MAX_CONTENT_LENGTH n) as [Hbig|Hlen].
    { rewrite ingest_too_large by done. cbn [fst]. intros [= _ H]; discriminate H. }
    rewrite ingest_spec by done. cbv zeta.
    destruct (endpoint_state w); cbn [fst]; intros [= _ H]; discriminate H.
Qed.

Lemma ingest_refuses_without_effect_witness :
  ingest_consciousness Demo.secure_filename (Demo.upload ".." "hello12345") Demo.empty
  = (Returns (json_error "Invalid filename", 400%nat), Demo.empty)
  /\ forall b,
       (ingest_consciousness Demo.secure_filename (Demo.upload "note.txt" "hello12345")
                             Demo.empty).1 <> Returns (b, 400%nat).
Proof.
  destruct (ingest_refuses_without_effect Demo.secure_filename Demo.empty)
    as (_ & _ & H3 & H4).
  split.
  - apply H3; [vm_compute; discriminate | discriminate | reflexivity].
  - intros b. apply H4; [discriminate | vm_compute; discriminate].
Defined.

(** X2.  app.py, lines 134-156.  When the call to Spaces dies with an
    exception that is not a ClientError, the ingest of a request that
    passed the checks is answered 500 'Internal server error during
    ingestion'; a vault id has been drawn, but the bucket and the
    audit log are as before: this failure leaves no audit record. *)
Theorem ingest_crash_leaves_no_record (secure_filename : string -> string)
    (w : world) (n : N) (name msg : string) (c : bytes) :
  (n <= MAX_CONTENT_LENGTH)%N ->
  name <> "" -> secure_filename name <> "" ->
  endpoint_state w = Failing msg ->
  ingest_consciousness secure_filename (Request.Make n (Some (Upload.Make name c))) w
  = (Returns (json_error "Internal server error during ingestion", 500%nat), drawn w)
  /\ vault_log (drawn w) = vault_log w
  /\ objects (drawn w) = objects w.
Proof.
  intros Hlen Hn Hf Hs. rewrite ingest_spec by done. cbv zeta. rewrite Hs.
  repeat split.
Qed.

Lemma ingest_crash_leaves_no_record_witness :
  (ingest_consciousness Demo.secure_filename (Demo.upload "note.txt" "hello12345")
     (set_endpoint (Failing "timed out") Demo.empty)).1
  = Returns (json_error "Internal server error during ingestion", 500%nat).
Proof.
  destruct (ingest_crash_leaves_no_record Demo.secure_filename
              (set_endpoint (Failing "timed out") Demo.empty)
              266%N "note.txt" "timed out" (Demo.ascii_bytes "hello12345"))
    as (H & _).
  - vm_compute. discriminate.
  - discriminate.
  - vm_compute. discriminate.
  - reflexivity.
  - change (Demo.upload "note.txt" "hello12345")
      with (Request.Make 266 (Some (Upload.Make "note.txt"
                                      (Demo.ascii_bytes "hello12345")))).
    rewrite H. reflexivity.
Defined.

(** X3.  app.py, lines 19 and 102-156.  An ingest is answered 200
    exactly when the request body is within MAX_CONTENT_LENGTH (100
    MiB), the request passes the three checks of its file name and the
    endpoint serves the upload.  The reply then carries the sanitized
    file name, the digest and the size of the uploaded content and the
    vault id drawn; the call appends exactly one audit record, an
    ingest record with status success carrying the same vault id, file
    name and digest; and the bucket afterwards is the bucket before
    with the content stored under the entry's key. *)
Theorem ingest_reply_matches_record (secure_filename : string -> string)
    (w : world) (n : N) (name : string) (c : bytes) :
  let request := Request.Make n (Some (Upload.Make name c)) in
  let w1 := (ingest_consciousness secure_filename request w).2 in
  ((exists r, (ingest_consciousness secure_filename request w).1
              = Returns (json_ingest r, 200%nat))
   <-> (n <= 100 * 1024 * 1024)%N
       /\ name <> "" /\ secure_filename name <> "" /\ endpoint_state w = Serving)
  /\ (forall r,
        (ingest_consciousness secure_filename request w).1
        = Returns (json_ingest r, 200%nat) ->
        IngestReply.filename r = secure_filename name
        /\ IngestReply.sha256_hash r = calculate_sha256 c
        /\ IngestReply.file_size r = length c
        /\ IngestReply.vault_id r = uuid4 w (uuid_draws w)
        /\ appended w w1
           = [Entry.Make (isoformat (utcnow w (clock_reads w))) ingest
                (IngestReply.filename r) (IngestReply.sha256_hash r)
                (IngestReply.vault_id r) success None]
        /\ objects w1
           = <[object_key (IngestReply.vault_id r) (IngestReply.filename r) := c]>
               (objects w)).
Proof.
  cbv zeta. split.
  - split.
    + intros [r Hr].
      destruct (ingest_consciousness secure_filename
                  (Request.Make n (Some (Upload.Make name c))) w)
        as [o w1] eqn:E.
      cbn [fst] in Hr. subst o.
      destruct (ingest_success_inv _ _ _ _ _ _ _ E) as (?&?&?&?&_). done.
    + intros (Hlen & Hn & Hf & Hs).
      rewrite ingest_spec by done. cbv zeta. rewrite Hs.
      eexists. reflexivity.
  - intros r Hr.
    destruct (ingest_consciousness secure_filename
                (Request.Make n (Some (Upload.Make name c))) w)
      as [o w1] eqn:E.
    cbn [fst snd] in *. subst o.
    destruct (ingest_success_inv _ _ _ _ _ _ _ E)
      as (_ & Hn & Hf & Hs & -> & Hl & Ho & _).
    cbn [IngestReply.filename IngestReply.sha256_hash IngestReply.file_size
         IngestReply.vault_id].
    repeat split; [by apply appended_app | exact Ho].
Qed.

Lemma ingest_reply_matches_record_witness :
  exists r,
    (ingest_consciousness Demo.secure_filename (Demo.upload "my note.txt" "hello12345")
                          Demo.empty).1 = Returns (json_ingest r, 200%nat)
    /\ IngestReply.filename r = "my_note.txt"
    /\ IngestReply.file_size r = 10%nat
    /\ IngestReply.vault_id r = Demo.ids 0.
Proof.
  destruct (ingest_reply_matches_record Demo.secure_filename Demo.empty 266%N
              "my note.txt" (Demo.ascii_bytes "hello12345")) as [[_ H1] H2].
  destruct H1 as [r Hr].
  - split; [vm_compute; discriminate|]. split; [discriminate|].
    split; [vm_compute; discriminate | reflexivity].
  - exists r. split; [exact Hr|].
    destruct (H2 r Hr) as (Hf & _ & Hsz & Hid & _).
    rewrite Hf, Hsz, Hid.
    split; [vm_compute; reflexivity|]. split; reflexivity.
Defined.

(** X26.  app.py, lines 19, 109-111 and 154-156.  A request whose body
    is longer than MAX_CONTENT_LENGTH (100 MiB) is refused by Flask at
    the first access to [request.files], inside the handler's [try]:
    whatever it carries, also nothing or a bad file name, the answer is
    500 'Internal server error during ingestion' (never 400 and never
    200), and nothing has happened: no id is drawn, nothing is stored,
    nothing is logged.  A body of exactly 100 MiB is not refused for
    its size. *)
Theorem oversized_request_is_answered_500 (secure_filename : string -> string)
    (w : world) (request : Request.t) :
  ((100 * 1024 * 1024 < Request.content_length request)%N ->
   ingest_consciousness secure_filename request w
   = (Returns (json_error "Internal server error during ingestion", 500%nat), w))
  /\ (Request.content_length request = (100 * 1024 * 1024)%N ->
      Request.file request = None ->
      ingest_consciousness secure_filename request w
      = (Returns (json_error "No file provided", 400%nat), w)).
Proof.
  split.
  - apply ingest_too_large.
  - destruct request as [n file]. cbn [Request.content_length Request.file].
    intros -> ->. by rewrite ingest_refused.
Qed.

Lemma oversized_request_is_answered_500_witness :
  ingest_consciousness Demo.secure_filename
    (Request.Make 104857601 (Some (Upload.Make "" []))) Demo.empty
  = (Returns (json_error "Internal server error during ingestion", 500%nat),
     Demo.empty).
Proof.
  destruct (oversized_request_is_answered_500 Demo.secure_filename Demo.empty
              (Request.Make 104857601 (Some (Upload.Make "" [])))) as [H _].
  apply H. vm_compute. reflexivity.
Defined.

(** X4.  app.py, lines 165-169 and 226-230.  A vault id that does not parse
    as a UUID is refused by retrieval and by verification with 400
    'Invalid vault ID format', whatever the other arguments, before any
    access to the bucket or to the audit log: the world is unchanged. *)
Theorem malformed_vault_id_is_refused (UUID_parses : string -> bool) (w : world)
    (vault_id : string) (filename metadata_only : option string) :
  UUID_parses vault_id = false ->
  retrieve_consciousness UUID_parses vault_id filename metadata_only w
  = (Returns (json_error "Invalid vault ID format", 400%nat), w)
  /\ verify_consciousness UUID_parses vault_id filename w
     = (Returns (json_error "Invalid vault ID format", 400%nat), w).
Proof.
  intros Hu. unfold retrieve_consciousness, verify_consciousness. unfold_M.
  rewrite Hu. split; reflexivity.
Qed.

Lemma malformed_vault_id_is_refused_witness :
  retrieve_consciousness Demo.canonical_uuid "../../etc" (Some "note.txt") None
                         Demo.stocked
  = (Returns (json_error "Invalid vault ID format", 400%nat), Demo.stocked).
Proof.
  apply (malformed_vault_id_is_refused Demo.canonical_uuid Demo.stocked "../../etc"
           (Some "note.txt") None).
  vm_compute. reflexivity.
Defined.

(** X5.  app.py, lines 172-173, 193-194 and 232-235.  With a vault id that
    parses, a request whose 'filename' argument is missing or empty is
    refused with 400 and no effect, by verification always and by
    retrieval unless metadata_only is 'true' (in any letter case). *)
Theorem filename_is_required (UUID_parses : string -> bool) (w : world)
    (vault_id : string) (filename metadata_only : option string) :
  UUID_parses vault_id = true ->
  filename = None \/ filename = Some "" ->
  verify_consciousness UUID_parses vault_id filename w
  = (Returns (json_error "Filename required for verification", 400%nat), w)
  /\ (lower (default "false" metadata_only) <> "true" ->
      retrieve_consciousness UUID_parses vault_id filename metadata_only w
      = (Returns (json_error "Filename required for file retrieval", 400%nat), w)).
Proof.
  intros Hu Hf. unfold retrieve_consciousness, verify_consciousness. unfold_M.
  rewrite Hu. cbn [negb].
  assert (Ht : truthy filename = false) by (by destruct Hf as [-> | ->]).
  rewrite Ht. split; [reflexivity|].
  intros Hm. by rewrite (bool_decide_eq_false_2 _ Hm).
Qed.

Lemma filename_is_required_witness :
  retrieve_consciousness Demo.canonical_uuid (Demo.ids 0) None (Some "no")
                         Demo.stocked
  = (Returns (json_error "Filename required for file retrieval", 400%nat),
     Demo.stocked).
Proof.
  destruct (filename_is_required Demo.canonical_uuid Demo.stocked (Demo.ids 0)
              None (Some "no")) as [_ H].
  - vm_compute. reflexivity.
  - by left.
  - apply H. vm_compute. discriminate.
Defined.

(** ** Retrieval *)

(** X6.  app.py, lines 193-206 with 80-90.  A file retrieval with a vault id
    that parses and a file name, when the call to Spaces does not die
    with an exception other than ClientError, appends exactly one audit
    record, a retrieve record for that vault id and file name, and
    never changes the bucket.  When the bucket holds a blob under the
    key the answer is 200 with that blob and the record has status
    success and the digest of the bytes served.  Otherwise (no such
    key, also when the endpoint refuses the call) the answer is 404
    'File not found in vault' and the record has status failed and an
    empty digest. *)
Theorem file_retrieval_is_audited (UUID_parses : string -> bool) (w : world)
    (vault_id filename : string) (metadata_only : option string) :
  UUID_parses vault_id = true ->
  lower (default "false" metadata_only) <> "true" ->
  filename <> "" ->
  (forall msg, endpoint_state w <> Failing msg) ->
  let served :=
    match endpoint_state w with
    | Serving => objects w !! object_key vault_id filename
    | _ => None
    end in
  let w' := (retrieve_consciousness UUID_parses vault_id (Some filename)
                                    metadata_only w).2 in
  objects w' = objects w
  /\ (retrieve_consciousness UUID_parses vault_id (Some filename) metadata_only w).1
     = Returns (match served with
                | Some c => (send_file filename c, 200%nat)
                | None => (json_error "File not found in vault", 404%nat)
                end)
  /\ appended w w'
     = [match served with
        | Some c =>
            Entry.Make (isoformat (utcnow w (clock_reads w))) retrieve filename
                       (calculate_sha256 c) vault_id success None
        | None =>
            Entry.Make (isoformat (utcnow w (clock_reads w))) retrieve filename
                       "" vault_id failed (Some "File not found in vault")
        end].
Proof.
  intros Hu Hm Hf Hs. cbv zeta. rewrite retrieve_file_spec by done. cbv zeta.
  destruct (endpoint_state w) as [| |msg] eqn:E;
    [destruct (objects w !! _)| |by destruct (Hs msg)];
    cbn [fst snd]; (split; [reflexivity|]); (split; [reflexivity|]);
    by apply appended_app.
Qed.

Lemma file_retrieval_is_audited_witness :
  exists e,
    appended Demo.offline
      (retrieve_consciousness Demo.canonical_uuid (Demo.ids 0) (Some "note.txt")
                              None Demo.offline).2 = [e]
    /\ Entry.operation e = retrieve /\ Entry.status e = failed
    /\ Entry.sha256_hash e = "".
Proof.
  destruct (file_retrieval_is_audited Demo.canonical_uuid Demo.offline (Demo.ids 0)
              "note.txt" None) as (_ & _ & H).
  - vm_compute. reflexivity.
  - vm_compute. discriminate.
  - discriminate.
  - intros msg. discriminate.
  - eexists. split; [exact H|]. repeat split.
Defined.

(** X7.  app.py, lines 175-191.  Metadata-only retrieval reads the audit log
    and nothing else: with a vault id that parses and metadata_only
    'true' in any letter case, the answer is the same in any two
    worlds with the same audit log, whatever the bucket holds, however
    the endpoint behaves and whatever the 'filename' argument is. *)
Theorem metadata_ignores_storage (UUID_parses : string -> bool) (w w' : world)
    (vault_id : string) (filename filename' metadata_only : option string) :
  UUID_parses vault_id = true ->
  lower (default "false" metadata_only) = "true" ->
  vault_log w = vault_log w' ->
  (retrieve_consciousness UUID_parses vault_id filename metadata_only w).1
  = (retrieve_consciousness UUID_parses vault_id filename' metadata_only w').1.
Proof.
  intros Hu Hm Hl. unfold retrieve_consciousness. unfold_M. rewrite Hu.
  rewrite (bool_decide_eq_true_2 _ Hm). cbn [negb]. rewrite Hl.
  destruct (vault_log w') as [lines|]; [|reflexivity].
  by destruct (List.find _ lines).
Qed.

Lemma metadata_ignores_storage_witness :
  (retrieve_consciousness Demo.canonical_uuid (Demo.ids 0) None (Some "True")
                          Demo.stocked).1
  = (retrieve_consciousness Demo.canonical_uuid (Demo.ids 0) (Some "x") (Some "True")
       (set_endpoint Rejecting (set_objects ∅ Demo.stocked))).1.
Proof.
  apply (metadata_ignores_storage Demo.canonical_uuid Demo.stocked
           (set_endpoint Rejecting (set_objects ∅ Demo.stocked)) (Demo.ids 0)
           None (Some "x") (Some "True")).
  - vm_compute. reflexivity.
  - vm_compute. reflexivity.
  - reflexivity.
Defined.

(** ** Verification: the error answers *)

(** X8.  app.py, lines 237-257 with 80-90.  With a vault id that parses and a
    file name, verification answers 404 and changes nothing in three
    cases, tried in this order: 'File not found in vault' when the
    bucket holds nothing under the key, also when the endpoint refuses
    the call; 'Vault log not found' when there is no log file;
    'Original hash not found in vault log' when no line of the log is
    an ingest record for that vault id and file name. *)
Theorem verify_not_found_answers (UUID_parses : string -> bool) (w : world)
    (vault_id filename : string) :
  UUID_parses vault_id = true -> filename <> "" ->
  let answer := verify_consciousness UUID_parses vault_id (Some filename) w in
  let no_blob :=
    endpoint_state w = Rejecting
    \/ (endpoint_state w = Serving
        /\ objects w !! object_key vault_id filename = None) in
  let blob :=
    endpoint_state w = Serving
    /\ exists c, objects w !! object_key vault_id filename = Some c in
  (no_blob -> answer = (Returns (json_error "File not found in vault", 404%nat), w))
  /\ (blob -> vault_log w = None ->
      answer = (Returns (json_error "Vault log not found", 404%nat), w))
  /\ (blob ->
      forall lines,
        vault_log w = Some lines ->
        Forall (fun e => ~ (Entry.vault_id e = vault_id
                            /\ Entry.filename e = filename
                            /\ Entry.operation e = ingest)) lines ->
        answer
        = (Returns (json_error "Original hash not found in vault log", 404%nat), w)).
Proof.
  intros Hu Hf. cbv zeta.
  unfold verify_consciousness. unfold_M. rewrite Hu. cbn [negb].
  replace (truthy (Some filename)) with true by (symmetry; by apply truthy_Some).
  cbn [negb from_option id]. rewrite download_from_spaces_spec.
  split; [|split].
  - intros [->|[-> ->]]; reflexivity.
  - intros [-> [c ->]] ->. reflexivity.
  - intros [-> [c ->]] lines -> Hl. cbn [fst snd].
    rewrite find_nowhere; [reflexivity|].
    eapply Forall_impl; [exact Hl|]. intros e. apply verify_match_false_iff.
Qed.

Lemma verify_not_found_answers_witness :
  verify_consciousness Demo.canonical_uuid (Demo.ids 0) (Some "other.txt")
                       Demo.stocked
  = (Returns (json_error "File not found in vault", 404%nat), Demo.stocked)
  /\ verify_consciousness Demo.canonical_uuid (Demo.ids 0) (Some "note.txt")
       (set_vault_log None Demo.stocked)
     = (Returns (json_error "Vault log not found", 404%nat),
        set_vault_log None Demo.stocked).
Proof.
  split.
  - destruct (verify_not_found_answers Demo.canonical_uuid Demo.stocked
                (Demo.ids 0) "other.txt") as (H & _).
    + vm_compute. reflexivity.
    + discriminate.
    + apply H. right. split; vm_compute; reflexivity.
  - destruct (verify_not_found_answers Demo.canonical_uuid
                (set_vault_log None Demo.stocked) (Demo.ids 0) "note.txt")
      as (_ & H & _).
    + vm_compute. reflexivity.
    + discriminate.
    + apply H; [|reflexivity].
      split; [vm_compute; reflexivity|]. eexists. vm_compute. reflexivity.
Defined.

(** ** The audit log over a history *)

(** X9.  app.py, lines 47-63 and every handler; bastion_cron.py.  The audit
    log is append-only: no step of a history (an ingest, a retrieval,
    a verification, a run of the auditor, a change of the bucket behind
    the service's back) removes or rewrites a line, and each step
    appends at most one line. *)
Theorem audit_log_is_append_only (secure_filename : string -> string)
    (UUID_parses : string -> bool) (w : world) (ev : event) :
  let w' := step secure_filename UUID_parses w ev in
  default [] (vault_log w') = default [] (vault_log w) ++ appended w w'
  /\ (length (appended w w') <= 1)%nat
  /\ (vault_log w <> None -> vault_log w' <> None).
Proof.
  cbv zeta.
  assert (Hsame : forall w', vault_log w' = vault_log w ->
            default [] (vault_log w') = default [] (vault_log w) ++ appended w w'
            /\ (length (appended w w') <= 1)%nat
            /\ (vault_log w <> None -> vault_log w' <> None)).
  { intros w' H. rewrite (appended_same _ _ H), H, app_nil_r. simpl.
    repeat split; [lia | done]. }
  assert (Hone : forall w' e, vault_log w' = Some (default [] (vault_log w) ++ [e]) ->
            default [] (vault_log w') = default [] (vault_log w) ++ appended w w'
            /\ (length (appended w w') <= 1)%nat
            /\ (vault_log w <> None -> vault_log w' <> None)).
  { intros w' e H. rewrite (appended_app _ _ _ H), H. simpl.
    repeat split; [lia | done]. }
  destruct ev as [file|v f m|v f| |o en]; cbn [step].
  - destruct (ingest_consciousness_log secure_filename file w)
      as [[Hl _]|(n & name & c & t & _ & _ & _ & _ & [[Hl _]|[Hl _]])]; eauto.
  - destruct (retrieve_consciousness_log UUID_parses v f m w)
      as [_ [Hl|(e & Hl & _)]]; eauto.
  - destruct (verify_consciousness_frame UUID_parses v f w) as [Hl _]. eauto.
  - destruct (main_frame w) as (_&_&Hl&_). eauto.
  - apply Hsame. reflexivity.
Qed.

(** The records a complete run appends: the checks, then the summary. *)
Lemma run_appends_one_summary_lines w :
  endpoint_state w = Serving ->
  catalogue (default [] (vault_log w)) <> [] ->
  exists (l : list integrity_line) (s : Summary.t) (w' : world),
    run_integrity_check w = (Returns tt, w')
    /\ integrity_log w' = Some (default [] (integrity_log w) ++ l ++ [integrity_summary s])
    /\ Summary.total_files s = length (catalogue (default [] (vault_log w))).
Proof.
  intros Hs Hne.
  destruct (check_each_spec (catalogue (default [] (vault_log w))) (tick w) 0 0)
    as (w1 & Heach & _ & _ & _ & Hl).
  eexists _, _, _. split.
  { unfold run_integrity_check, get_vault_files. unfold_M.
    rewrite (probe_spec (tick w) Hs). cbn [negb].
    change (vault_log (tick w)) with (vault_log w).
    rewrite bool_decide_eq_false_2 by done.
    rewrite Heach. reflexivity. }
  cbn [integrity_log set_integrity_log tick fst snd].
  split.
  { unfold append_line. rewrite Hl. simpl. by rewrite <- app_assoc. }
  reflexivity.
Qed.

(** ** The auditor as a whole *)

Lemma run_integrity_check_spec w :
  match endpoint_state w with
  | Serving =>
      exists w', run_integrity_check w = (Returns tt, w')
                 /\ exists l, default [] (integrity_log w')
                              = default [] (integrity_log w) ++ l
  | Rejecting => run_integrity_check w = (Returns tt, tick w)
  | Failing msg => run_integrity_check w = (Raises (OtherException msg), tick w)
  end.
Proof.
  unfold run_integrity_check, get_vault_files, check_spaces_connectivity, head_bucket.
  unfold_M. simpl.
  destruct (endpoint_state w) eqn:E; simpl; try reflexivity.
  destruct (bool_decide _); simpl.
  { eexists. split; [reflexivity|]. exists []. by rewrite app_nil_r. }
  destruct (check_each_spec (catalogue (default [] (vault_log w))) (tick w) 0 0)
    as (w1 & Heq & _ & _ & _ & Hl).
  rewrite Heq. eexists. split; [reflexivity|]. simpl. rewrite Hl. simpl.
  eexists. by rewrite <- app_assoc.
Qed.

Lemma cleanup_old_logs_spec w :
  cleanup_old_logs w
  = (Returns tt,
     if (1000 <? length (default [] (integrity_log w)))%nat
     then set_integrity_log
            (Some (last_lines 1000 (default [] (integrity_log w)))) w
     else w).
Proof.
  unfold cleanup_old_logs. unfold_M.
  destruct (integrity_log w) as [lines|]; [|reflexivity]. simpl.
  by destruct (1000 <? length lines)%nat.
Qed.

(** X10.  bastion_cron.py, lines 221-246 with 140-219.  A run of the script
    always comes to its end, whatever the endpoint does and whatever
    the logs hold, and it is read-only on the vault: the bucket, the
    audit log and the id generator are the same after the run as
    before it.  Only the integrity trail (and the clock) move. *)
Theorem bastion_run_is_read_only (w : world) :
  exists w', main w = (Returns tt, w') /\ audit_frame w w'.
Proof.
  pose proof (main_frame w) as F.
  exists (main w).2. split; [|exact F].
  unfold main, except_Exception in *. unfold mbind, M_bind in *.
  destruct (run_integrity_check w) as [[[]|e] w1]; simpl in *.
  - rewrite cleanup_old_logs_spec. reflexivity.
  - unfold_M. reflexivity.
Qed.

(** X11.  bastion_cron.py, lines 129-138 and 147-150.  When the endpoint
    refuses the connectivity probe with a ClientError the run checks no
    file and writes no record of its own: what the script leaves in the
    integrity trail is the trail it found, pruned to its last 1000
    lines. *)
Theorem refused_probe_writes_nothing (w : world) :
  endpoint_state w = Rejecting ->
  run_integrity_check w = (Returns tt, tick w)
  /\ default [] (integrity_log (main w).2)
     = if (1000 <? length (default [] (integrity_log w)))%nat
       then last_lines 1000 (default [] (integrity_log w))
       else default [] (integrity_log w).
Proof.
  intros Hs. pose proof (run_integrity_check_spec w) as H. rewrite Hs in H.
  split; [exact H|].
  unfold main, except_Exception, mbind, M_bind. rewrite H.
  rewrite cleanup_old_logs_spec. cbn [snd].
  change (integrity_log (tick w)) with (integrity_log w).
  by destruct (1000 <? length (default [] (integrity_log w)))%nat.
Qed.

Lemma refused_probe_writes_nothing_witness :
  integrity_log (main Demo.offline).2 = None.
Proof.
  destruct (refused_probe_writes_nothing Demo.offline) as [H _].
  - reflexivity.
  - unfold main, except_Exception, mbind, M_bind. rewrite H. reflexivity.
Defined.

(** X12.  bastion_cron.py, lines 129-138 and 221-246.  When the connectivity
    probe dies with an exception that is not a ClientError, the
    exception reaches the script body: the run checks no file, appends
    exactly one fatal_error record carrying the exception's text, and
    skips the pruning of the trail. *)
Theorem probe_crash_is_recorded (w : world) (msg : string) :
  endpoint_state w = Failing msg ->
  main w
  = (Returns tt,
     set_integrity_log
       (Some (default [] (integrity_log w)
              ++ [fatal_error (isoformat (utcnow w (S (clock_reads w)))) msg]))
       (tick (tick w))).
Proof.
  intros Hs. pose proof (run_integrity_check_spec w) as H. rewrite Hs in H.
  unfold main, except_Exception, mbind, M_bind. rewrite H. reflexivity.
Qed.

Lemma probe_crash_is_recorded_witness :
  integrity_log (main (set_endpoint (Failing "timed out") Demo.empty)).2
  = Some [fatal_error (isoformat (Demo.clock 1)) "timed out"].
Proof.
  rewrite (probe_crash_is_recorded (set_endpoint (Failing "timed out") Demo.empty)
             "timed out"); reflexivity.
Defined.

Lemma last_lines_length {A} (n : nat) (lines : list A) :
  length (last_lines n lines) = min n (length lines).
Proof. unfold last_lines. rewrite length_drop. lia. Qed.

Lemma last_lines_last {A} (n : nat) (lines : list A) (x : A) :
  (0 < n)%nat -> last_lines n (lines ++ [x]) = last_lines (n - 1) lines ++ [x].
Proof.
  intros Hn. unfold last_lines. rewrite length_app. simpl.
  rewrite drop_app_le by lia. f_equal. f_equal. lia.
Qed.

(** X13.  bastion_cron.py, lines 203-246.  After a run of the script in which
    the probe did not die with a foreign exception, the integrity trail
    holds at most 1000 lines, however many it held before and however
    many files were checked; and when the probe passed and the audit
    log has at least one ingest/success record, the last line of the
    trail is the summary of this run: pruning never drops it. *)
Theorem trail_is_bounded_after_run (w : world) :
  (forall msg, endpoint_state w <> Failing msg) ->
  (length (default [] (integrity_log (main w).2)) <= 1000)%nat
  /\ (endpoint_state w = Serving ->
      catalogue (default [] (vault_log w)) <> [] ->
      exists s,
        last (default [] (integrity_log (main w).2)) = Some (integrity_summary s)
        /\ Summary.total_files s = length (catalogue (default [] (vault_log w)))).
Proof.
  intros Hs.
  assert (Hcl : forall w1, (length (default [] (integrity_log (cleanup_old_logs w1).2))
                            <= 1000)%nat).
  { intros w1. rewrite cleanup_old_logs_spec. cbn [snd].
    destruct (Nat.ltb_spec 1000 (length (default [] (integrity_log w1)))); [|lia].
    simpl. rewrite last_lines_length. lia. }
  pose proof (run_integrity_check_spec w) as H.
  unfold main, except_Exception, mbind, M_bind.
  destruct (endpoint_state w) as [| |msg] eqn:E; [| |by destruct (Hs msg)].
  - destruct H as (w' & Hr & _). rewrite Hr. split.
    + specialize (Hcl w'). rewrite cleanup_old_logs_spec in Hcl |- *. exact Hcl.
    + intros _ Hne.
      destruct (run_appends_one_summary_lines w) as (l & s & w2 & Hr2 & Hl & Ht);
        [exact E | exact Hne |].
      rewrite Hr in Hr2. injection Hr2 as <-.
      exists s. split; [|exact Ht].
      rewrite app_assoc in Hl.
      rewrite cleanup_old_logs_spec. cbn [snd]. rewrite Hl.
      cbn [from_option id].
      destruct (1000 <? _)%nat; cbn [integrity_log set_integrity_log from_option id].
      * rewrite last_lines_last by lia. apply last_snoc.
      * rewrite Hl. apply last_snoc.
  - rewrite H. split; [|by intros [=]].
    specialize (Hcl (tick w)). rewrite cleanup_old_logs_spec in Hcl |- *. exact Hcl.
Qed.

Lemma trail_is_bounded_after_run_witness :
  (length (default [] (integrity_log (main Demo.three_files).2)) <= 1000)%nat
  /\ exists s,
       last (default [] (integrity_log (main Demo.three_files).2))
       = Some (integrity_summary s)
       /\ Summary.total_files s = 3%nat.
Proof.
  destruct (trail_is_bounded_after_run Demo.three_files) as [H1 H2].
  - intros msg. vm_compute. discriminate.
  - split; [exact H1|].
    destruct H2 as (s & Hs & Ht).
    + vm_compute. reflexivity.
    + vm_compute. discriminate.
    + exists s. split; [exact Hs|]. rewrite Ht. vm_compute. reflexivity.
Defined.

(** ** The relay and the auditor together *)

Lemma catalogue_app l l' : catalogue (l ++ l') = catalogue l ++ catalogue l'.
Proof. unfold catalogue. by rewrite List.filter_app, fmap_app. Qed.

(** X14.  app.py, lines 102-156, with bastion_cron.py, lines 67-127.  What an
    ingest that is answered 200 means for the next audit: the catalogue
    of the auditor grows by exactly one entry, the last one, carrying
    the vault id, file name and digest of the reply; and, as long as
    the bucket is left alone and keeps serving, the check of that entry
    finds the blob with the recorded digest: it returns True and
    appends to the integrity trail exactly one record, with status
    verified, both hashes equal to the digest of the reply,
    integrity_verified true and no error. *)
Theorem ingested_file_passes_audit (secure_filename : string -> string) (w w1 : world)
    (n : N) (name : string) (c : bytes) (r : IngestReply.t) :
  ingest_consciousness secure_filename (Request.Make n (Some (Upload.Make name c))) w
  = (Returns (json_ingest r, 200%nat), w1) ->
  exists w2,
    catalogue (default [] (vault_log w1))
    = catalogue (default [] (vault_log w))
      ++ [VaultFile.Make (IngestReply.vault_id r) (IngestReply.filename r)
            (IngestReply.sha256_hash r) (isoformat (utcnow w (clock_reads w)))]
    /\ verify_file_integrity (IngestReply.vault_id r) (IngestReply.filename r)
         (IngestReply.sha256_hash r) w1 = (Returns true, w2)
    /\ integrity_log w2
       = Some (default [] (integrity_log w1)
               ++ [integrity_verification
                     (Check.Make (isoformat (utcnow w1 (clock_reads w1)))
                        (IngestReply.vault_id r) (IngestReply.filename r) verified
                        (Some (IngestReply.sha256_hash r))
                        (Some (IngestReply.sha256_hash r)) (Some true) None)]).
Proof.
  intros Hi.
  destruct (ingest_success_inv _ _ _ _ _ _ _ Hi)
    as (_ & Hn & Hf & Hs & -> & Hl & Ho & Hs1).
  cbn [IngestReply.vault_id IngestReply.filename IngestReply.sha256_hash].
  assert (Hflag : integrity_flag (Some (calculate_sha256 c))
                                 (Some (calculate_sha256 c)) = Some true).
  { rewrite integrity_flag_truthy
      by (apply truthy_Some, calculate_sha256_nonempty).
    by rewrite bool_decide_eq_true_2. }
  rewrite verify_file_integrity_spec.
  unfold check_passes, check_line. rewrite Hs1, Ho, lookup_insert_eq.
  rewrite bool_decide_eq_true_2 by reflexivity. rewrite Hflag.
  eexists. split.
  { rewrite Hl. cbn [from_option id]. rewrite catalogue_app. reflexivity. }
  split; reflexivity.
Qed.

Lemma ingested_file_passes_audit_witness :
  (verify_file_integrity (Demo.ids 0) "note.txt"
     (calculate_sha256 (Demo.ascii_bytes "hello12345")) Demo.stocked).1
  = Returns true.
Proof.
  destruct (ingested_file_passes_audit Demo.secure_filename Demo.empty Demo.stocked
              266%N "note.txt" (Demo.ascii_bytes "hello12345")
              (IngestReply.Make (Demo.ids 0) "note.txt"
                 (calculate_sha256 (Demo.ascii_bytes "hello12345")) 10
                 (isoformat (Demo.clock 1))))
    as (w2 & _ & H & _).
  - vm_compute. reflexivity.
  - cbn [IngestReply.vault_id IngestReply.filename IngestReply.sha256_hash] in H.
    rewrite H. reflexivity.
Defined.

(** X15.  app.py, lines 158-274, with bastion_cron.py, lines 67-87.
    Retrievals and verifications, found or not, and ingests that are
    refused or fail never change the catalogue the auditor works from:
    only an ingest answered 200 adds to it. *)
Theorem catalogue_grows_by_ingest_only (secure_filename : string -> string)
    (UUID_parses : string -> bool) (w : world) (ev : event) :
  let w' := step secure_filename UUID_parses w ev in
  catalogue (default [] (vault_log w')) = catalogue (default [] (vault_log w))
  \/ exists n name c r,
       ev = Ingest (Request.Make n (Some (Upload.Make name c)))
       /\ (ingest_consciousness secure_filename
             (Request.Make n (Some (Upload.Make name c))) w).1
          = Returns (json_ingest r, 200%nat)
       /\ length (catalogue (default [] (vault_log w')))
          = S (length (catalogue (default [] (vault_log w)))).
Proof.
  cbv zeta. destruct ev as [request|v f m|v f| |o en]; cbn [step].
  - destruct (ingest_cases secure_filename request w)
      as [H|[[msg H]|(n & name & c & -> & Hlen & Hn & Hf)]];
      [left; by rewrite H..|].
    rewrite ingest_spec by done. cbv zeta.
    destruct (endpoint_state w) eqn:Es; cbn [fst snd].
    + right. eexists n, name, c, _. split; [reflexivity|].
      rewrite ingest_spec by done. cbv zeta. rewrite Es.
      split; [reflexivity|].
      cbn [vault_log tick set_vault_log append_line from_option id].
      rewrite catalogue_app, length_app. simpl. lia.
    + left. cbn [vault_log tick set_vault_log append_line from_option id].
      rewrite catalogue_app. simpl. by rewrite app_nil_r.
    + by left.
  - left. destruct (retrieve_consciousness_log UUID_parses v f m w)
      as [_ [->|(e & -> & Hop)]]; [done|].
    cbn [from_option id]. rewrite catalogue_app.
    unfold catalogue at 2. simpl. unfold is_catalogued. rewrite Hop. simpl.
    by rewrite app_nil_r.
  - left. by destruct (verify_consciousness_frame UUID_parses v f w) as [-> _].
  - left. by destruct (main_frame w) as (_&_&->&_).
  - by left.
Qed.

(** ** Vault ids *)

Lemma ingest_ids_app l l' : ingest_ids (l ++ l') = ingest_ids l ++ ingest_ids l'.
Proof. unfold ingest_ids. by rewrite List.filter_app, fmap_app. Qed.

(** The generator is only ever advanced, and only by an ingest. *)
Lemma step_generator sf up w ev :
  uuid4 (step sf up w ev) = uuid4 w
  /\ (uuid_draws w <= uuid_draws (step sf up w ev))%nat
  /\ (ingest_ids (default [] (vault_log (step sf up w ev)))
      = ingest_ids (default [] (vault_log w))
      \/ (ingest_ids (default [] (vault_log (step sf up w ev)))
          = ingest_ids (default [] (vault_log w)) ++ [uuid4 w (uuid_draws w)]
          /\ uuid_draws (step sf up w ev) = S (uuid_draws w))).
Proof.
  destruct ev as [request|v f m|v f| |o en]; cbn [step].
  - destruct (ingest_cases sf request w)
      as [H|[[msg H]|(n & name & c & -> & Hlen & Hn & Hf)]];
      [rewrite H; by auto..|].
    rewrite ingest_spec by done. cbv zeta.
    destruct (endpoint_state w); cbn [snd];
      cbn [uuid4 uuid_draws vault_log tick set_vault_log set_objects drawn
           append_line from_option id];
      (split; [reflexivity|]); (split; [lia|]);
      [right | right | by left]; rewrite ingest_ids_app; by split.
  - unfold retrieve_consciousness. unfold_M.
    destruct (up v); simpl; [|by auto].
    destruct (bool_decide (lower _ = "true")); simpl.
    { destruct (vault_log w) as [lines|] eqn:E; simpl; [|by rewrite E; auto].
      destruct (List.find _ lines); simpl; rewrite E; auto. }
    destruct (truthy f); simpl; [|by auto].
    rewrite download_from_spaces_spec.
    destruct (endpoint_state w); simpl; [destruct (objects w !! _)|..]; simpl;
      (split; [reflexivity|]); (split; [lia|]); left;
      rewrite ?ingest_ids_app; unfold ingest_ids; simpl; by rewrite ?app_nil_r.
  - unfold verify_consciousness. unfold_M.
    destruct (up v); simpl; [|by auto].
    destruct (truthy f); simpl; [|by auto].
    rewrite download_from_spaces_spec.
    destruct (endpoint_state w); simpl; try by auto.
    destruct (objects w !! _); simpl; [|by auto].
    destruct (vault_log w) as [lines|] eqn:E; simpl; [|by rewrite E; auto].
    destruct (truthy _); simpl; rewrite E; auto.
  - destruct (main_frame w) as (_&_&->&->&->). auto.
  - auto.
Qed.

Lemma NoDup_fmap_below {A} (f : nat -> A) (n : nat) (idxs : list nat) :
  (forall i j, (i < n)%nat -> (j < n)%nat -> f i = f j -> i = j) ->
  NoDup idxs -> Forall (fun i => (i < n)%nat) idxs -> NoDup (f <$> idxs).
Proof.
  intros Hinj. induction 1 as [|i idxs Hi Hnd IH]; intros Hlt; [constructor|].
  apply Forall_cons in Hlt as [Hi' Hlt]. cbn [fmap list_fmap]. constructor.
  - intros Hin. apply list_elem_of_fmap in Hin as (j & Hij & Hj).
    rewrite Forall_forall in Hlt.
    assert (i = j) by (apply Hinj; auto). by subst j.
  - by apply IH.
Qed.

(** X16.  app.py, lines 130-131.  The code draws each vault id from
    [uuid.uuid4()] and never compares it with an earlier one, so
    distinctness rests on the generator alone: in every world reached
    from a fresh start, if the ids the generator has handed out so far
    are pairwise distinct, then no two ingest records of the audit log
    share a vault id, whatever the uploads were and whether the ingests
    succeeded or failed. *)
Theorem vault_ids_distinct_when_draws_are (secure_filename : string -> string)
    (UUID_parses : string -> bool) (w0 : world) (evs : list event) :
  let w := run secure_filename UUID_parses evs w0 in
  pristine w0 ->
  (forall i j : nat,
      (i < uuid_draws w)%nat -> (j < uuid_draws w)%nat ->
      uuid4 w0 i = uuid4 w0 j -> i = j) ->
  NoDup (ingest_ids (default [] (vault_log w))).
Proof.
  intros w Hp Hinj. subst w.
  enough (H : let w := run secure_filename UUID_parses evs w0 in
              uuid4 w = uuid4 w0
              /\ exists idxs : list nat,
                   ingest_ids (default [] (vault_log w)) = uuid4 w0 <$> idxs
                   /\ NoDup idxs
                   /\ Forall (fun i => (i < uuid_draws w)%nat) idxs).
  { destruct H as (_ & idxs & -> & Hnd & Hlt).
    by apply (NoDup_fmap_below _ _ _ Hinj). }
  clear Hinj. induction evs as [|ev evs IH] using rev_ind.
  - simpl. split; [reflexivity|]. exists []. repeat split; try constructor.
    by destruct Hp as [-> | ->].
  - unfold run in *. rewrite foldl_app. cbn [foldl]. cbv zeta in IH.
    set (w := foldl (step secure_filename UUID_parses) w0 evs) in *.
    destruct IH as (Hu & idxs & Hids & Hnd & Hlt).
    destruct (step_generator secure_filename UUID_parses w ev)
      as (Hu' & Hle & [Hsame|[Hnew Hdr]]).
    + split; [congruence|]. exists idxs. rewrite Hsame.
      repeat split; [exact Hids | exact Hnd |].
      eapply Forall_impl; [exact Hlt|]. intros i Hi. simpl in Hi. lia.
    + split; [congruence|]. exists (idxs ++ [uuid_draws w]).
      rewrite Hnew, Hids, fmap_app, Hu. repeat split.
      * apply NoDup_app. repeat split; [exact Hnd | | apply NoDup_singleton].
        intros i Hi Hi'. apply list_elem_of_singleton in Hi'. subst i.
        rewrite Forall_forall in Hlt. specialize (Hlt _ Hi). lia.
      * apply Forall_app. split.
        -- eapply Forall_impl; [exact Hlt|]. intros i Hi. simpl in Hi. lia.
        -- apply Forall_singleton. lia.
Qed.

(** The same upload ingested twice: two records, two ids. *)
Lemma vault_ids_distinct_when_draws_are_witness :
  NoDup (ingest_ids
           (default []
              (vault_log
                 (run Demo.secure_filename Demo.canonical_uuid
                      [Ingest (Demo.upload "a.txt" "alpha");
                       Ingest (Demo.upload "a.txt" "alpha")] Demo.empty)))).
Proof.
  apply (vault_ids_distinct_when_draws_are Demo.secure_filename Demo.canonical_uuid
           Demo.empty
           [Ingest (Demo.upload "a.txt" "alpha");
            Ingest (Demo.upload "a.txt" "alpha")]).
  - by left.
  - assert (E : uuid_draws
                  (run Demo.secure_filename Demo.canonical_uuid
                       [Ingest (Demo.upload "a.txt" "alpha");
                        Ingest (Demo.upload "a.txt" "alpha")] Demo.empty) = 2%nat)
      by (vm_compute; reflexivity).
    rewrite E. intros i j Hi Hj H.
    destruct i as [|[|i]], j as [|[|j]]; try lia; try reflexivity;
      vm_compute in H; discriminate H.
Defined.

(** ** Storage keys *)

(** X17.  app.py, lines 65-90 (the f-string of the key).  Two entries with
    vault ids of the same length (every [str(uuid.uuid4())] has 36
    characters) are stored under the same key only if they have the
    same vault id and the same file name: distinct entries never
    overwrite each other's blob. *)
Theorem object_key_injective (vault_id vault_id' filename filename' : string) :
  String.length vault_id = String.length vault_id' ->
  object_key vault_id filename = object_key vault_id' filename' ->
  vault_id = vault_id' /\ filename = filename'.
Proof.
  intros Hlen H. unfold object_key in H.
  apply append_inj_length in H as [_ H]; [|reflexivity].
  apply append_inj_length in H as [-> H]; [|exact Hlen].
  apply append_inj_length in H as [_ ->]; [|reflexivity]. by split.
Qed.

Lemma object_key_injective_witness :
  Demo.ids 1 = Demo.ids 1 /\ "a.txt" = "a.txt".
Proof.
  apply (object_key_injective (Demo.ids 1) (Demo.ids 1) "a.txt" "a.txt");
    reflexivity.
Defined.

(** ** The digest as text *)

Lemma hex_digit_range (d : Z) :
  0 <= d < 16 -> Sha256.hex_digit d ∈ list_ascii_of_string "0123456789abcdef".
Proof.
  intros Hd.
  assert (H : d = 0 \/ d = 1 \/ d = 2 \/ d = 3 \/ d = 4 \/ d = 5 \/ d = 6 \/ d = 7
              \/ d = 8 \/ d = 9 \/ d = 10 \/ d = 11 \/ d = 12 \/ d = 13 \/ d = 14
              \/ d = 15) by lia.
  repeat (destruct H as [->|H]; [vm_compute; repeat constructor|]).
  subst d. vm_compute. repeat constructor.
Qed.

Lemma hex_chars (n : nat) (x : Z) :
  Forall (fun a => a ∈ list_ascii_of_string "0123456789abcdef")
         (list_ascii_of_string (Sha256.hex n x)).
Proof.
  induction n as [|n IH]; cbn [Sha256.hex list_ascii_of_string]; constructor.
  - apply hex_digit_range. apply Z.mod_pos_bound. lia.
  - exact IH.
Qed.

(** X18.  app.py and bastion_cron.py, lines 43-45.  Whatever the content, also
    the empty one, the digest text is exactly 64 characters long and
    each of them is a lowercase hexadecimal digit; in particular it is
    never the empty string, which the verification handler would read
    as a missing original hash. *)
Theorem digest_is_64_hex_digits (file_content : bytes) :
  String.length (calculate_sha256 file_content) = 64%nat
  /\ Forall (fun a => a ∈ list_ascii_of_string "0123456789abcdef")
            (list_ascii_of_string (calculate_sha256 file_content))
  /\ truthy (Some (calculate_sha256 file_content)) = true.
Proof.
  split; [apply calculate_sha256_length|]. split; [apply hex_chars|].
  apply truthy_Some, calculate_sha256_nonempty.
Qed.

(** ** Two readers of the same blob *)

(** X19.  app.py, lines 219-274, with bastion_cron.py, lines 101-127.  The
    verification handler and the auditor agree.  For the first ingest
    record of (vault_id, filename) in the audit log, with a non-empty
    digest, and a blob under the entry's key in a serving bucket:
    verification answers 200 and its integrity_verified is the value
    the auditor's check of that record returns; both say True exactly
    when the blob's digest is the recorded one. *)
Theorem auditor_and_verification_agree (UUID_parses : string -> bool) (w : world)
    (before after : list Entry.t) (e : Entry.t) (c : bytes) :
  UUID_parses (Entry.vault_id e) = true ->
  endpoint_state w = Serving ->
  vault_log w = Some (before ++ e :: after) ->
  Forall (fun x => ~ (Entry.vault_id x = Entry.vault_id e
                      /\ Entry.filename x = Entry.filename e
                      /\ Entry.operation x = ingest)) before ->
  Entry.operation e = ingest ->
  Entry.filename e <> "" -> Entry.sha256_hash e <> "" ->
  objects w !! object_key (Entry.vault_id e) (Entry.filename e) = Some c ->
  exists (r : VerifyReply.t) (w' : world),
    verify_consciousness UUID_parses (Entry.vault_id e) (Some (Entry.filename e)) w
    = (Returns (json_verify r, 200%nat), w')
    /\ (verify_file_integrity (Entry.vault_id e) (Entry.filename e)
                              (Entry.sha256_hash e) w).1
       = Returns (VerifyReply.integrity_verified r)
    /\ (VerifyReply.integrity_verified r = true
        <-> calculate_sha256 c = Entry.sha256_hash e).
Proof.
  intros Hu Hs Hl Hb Hop Hf Hh Ho.
  eexists _, _. split.
  { unfold verify_consciousness. unfold_M. rewrite Hu. cbn [negb].
    replace (truthy (Some (Entry.filename e))) with true
      by (symmetry; by apply truthy_Some).
    cbn [negb from_option id]. rewrite download_from_spaces_spec, Hs, Ho.
    cbn [fst snd]. rewrite Hl.
    rewrite (find_first _ before after e); first last.
    { unfold verify_match. by rewrite !bool_decide_eq_true_2. }
    { eapply Forall_impl; [exact Hb|]. intros x. apply verify_match_false_iff. }
    cbn [fmap option_fmap option_map from_option id].
    replace (truthy (Some (Entry.sha256_hash e))) with true
      by (symmetry; by apply truthy_Some).
    reflexivity. }
  cbn [VerifyReply.integrity_verified].
  rewrite verify_file_integrity_spec. cbn [fst].
  unfold check_passes. rewrite Hs, Ho.
  split; [reflexivity | apply bool_decide_eq_true].
Qed.

Lemma auditor_and_verification_agree_witness :
  exists (r : VerifyReply.t) (w' : world),
    verify_consciousness Demo.canonical_uuid (Demo.ids 0) (Some "note.txt")
                         Demo.stocked
    = (Returns (json_verify r, 200%nat), w')
    /\ (verify_file_integrity (Demo.ids 0) "note.txt"
          (calculate_sha256 (Demo.ascii_bytes "hello12345")) Demo.stocked).1
       = Returns (VerifyReply.integrity_verified r).
Proof.
  destruct (auditor_and_verification_agree Demo.canonical_uuid Demo.stocked [] []
              (Entry.Make (isoformat (Demo.clock 0)) ingest "note.txt"
                 (calculate_sha256 (Demo.ascii_bytes "hello12345")) (Demo.ids 0)
                 success None)
              (Demo.ascii_bytes "hello12345"))
    as (r & w' & Hv & Ha & _).
  - vm_compute. reflexivity.
  - vm_compute. reflexivity.
  - vm_compute. reflexivity.
  - constructor.
  - reflexivity.
  - discriminate.
  - apply calculate_sha256_nonempty.
  - vm_compute. reflexivity.
  - exists r, w'. split; [exact Hv | exact Ha].
Defined.

(** X20.  app.py, lines 193-206.  File retrieval reads the bucket and never the
    audit log: it serves whatever bytes are stored under the key, also
    bytes that are not the ones ingested, without comparing their
    digest with the recorded one.  In two worlds with the same bucket
    and the same endpoint behaviour the answer is the same, whatever
    the audit logs hold. *)
Theorem retrieval_ignores_audit_log (UUID_parses : string -> bool) (w w' : world)
    (vault_id filename : string) (metadata_only : option string) :
  UUID_parses vault_id = true ->
  lower (default "false" metadata_only) <> "true" ->
  filename <> "" ->
  objects w = objects w' -> endpoint_state w = endpoint_state w' ->
  (retrieve_consciousness UUID_parses vault_id (Some filename) metadata_only w).1
  = (retrieve_consciousness UUID_parses vault_id (Some filename) metadata_only w').1
  /\ (forall c,
        endpoint_state w = Serving ->
        objects w !! object_key vault_id filename = Some c ->
        (retrieve_consciousness UUID_parses vault_id (Some filename)
                                metadata_only w).1
        = Returns (send_file filename c, 200%nat)).
Proof.
  intros Hu Hm Hf Ho He. rewrite !retrieve_file_spec by done. cbv zeta.
  rewrite <- Ho, <- He. split.
  - destruct (endpoint_state w); [destruct (objects w !! _)|..]; reflexivity.
  - intros c -> ->. reflexivity.
Qed.

(** The blob of [Demo.stocked] replaced by the empty one, and the audit
    log removed: the empty blob is served. *)
Lemma retrieval_ignores_audit_log_witness :
  (retrieve_consciousness Demo.canonical_uuid (Demo.ids 0) (Some "note.txt") None
     (set_vault_log None
        (set_objects (<[object_key (Demo.ids 0) "note.txt" := []]>
                        (objects Demo.stocked)) Demo.stocked))).1
  = Returns (send_file "note.txt" [], 200%nat).
Proof.
  set (w := set_vault_log None
              (set_objects (<[object_key (Demo.ids 0) "note.txt" := []]>
                              (objects Demo.stocked)) Demo.stocked)).
  destruct (retrieval_ignores_audit_log Demo.canonical_uuid w w (Demo.ids 0)
              "note.txt" None) as [_ H].
  - vm_compute. reflexivity.
  - vm_compute. discriminate.
  - discriminate.
  - reflexivity.
  - reflexivity.
  - apply H; vm_compute; reflexivity.
Defined.

(** ** Start-up *)

Lemma step_keeps_log_file sf up w ev :
  vault_log w <> None -> vault_log (step sf up w ev) <> None.
Proof.
  intros H. destruct ev as [file|v f m|v f| |o en]; cbn [step].
  - destruct (ingest_consciousness_log sf file w)
      as [[-> _]|(n & name & c & t & _ & _ & _ & _ & [[-> _]|[-> _]])]; done.
  - destruct (retrieve_consciousness_log up v f m w) as [_ [->|(e & -> & _)]]; done.
  - by destruct (verify_consciousness_frame up v f w) as [-> _].
  - by destruct (main_frame w) as (_&_&->&_).
  - done.
Qed.

Lemma run_keeps_log_file sf up evs w :
  vault_log w <> None -> vault_log (run sf up evs w) <> None.
Proof.
  intros H. induction evs as [|ev evs IH] using rev_ind; [done|].
  unfold run in *. rewrite foldl_app. by apply step_keeps_log_file.
Qed.

(** X21.  app.py, lines 276-280, with the handlers.  Starting the service
    creates the audit log when it is missing and keeps every line of an
    existing one.  From then on, whatever requests, auditor runs and
    bucket changes follow, the log file exists, so metadata-only
    retrieval and verification never answer 'Vault log not found'. *)
Theorem log_file_exists_after_startup (secure_filename : string -> string)
    (UUID_parses : string -> bool) (w : world) (evs : list event) :
  let w0 := (startup w).2 in
  let w' := run secure_filename UUID_parses evs w0 in
  startup w = (Returns tt, w0)
  /\ vault_log w0 = Some (default [] (vault_log w))
  /\ vault_log w' <> None
  /\ forall vault_id filename metadata_only,
       (retrieve_consciousness UUID_parses vault_id filename metadata_only w').1
       <> Returns (json_error "Vault log not found", 404%nat)
       /\ (verify_consciousness UUID_parses vault_id filename w').1
          <> Returns (json_error "Vault log not found", 404%nat).
Proof.
  cbv zeta.
  assert (H0 : vault_log (startup w).2 = Some (default [] (vault_log w))).
  { unfold startup. destruct (vault_log w) eqn:E; [exact E | reflexivity]. }
  split; [clear H0; unfold startup; destruct (vault_log w); reflexivity|].
  split; [exact H0|].
  assert (H : vault_log (run secure_filename UUID_parses evs (startup w).2) <> None).
  { apply run_keeps_log_file. by rewrite H0. }
  split; [exact H|].
  set (w' := run secure_filename UUID_parses evs (startup w).2) in *. clearbody w'.
  destruct (vault_log w') as [lines|] eqn:El; [clear H|done].
  intros v f m. split.
  - unfold retrieve_consciousness. unfold_M.
    destruct (UUID_parses v); cbn [negb]; [|discriminate].
    destruct (bool_decide (lower _ = "true")).
    { rewrite El. destruct (List.find _ lines); discriminate. }
    destruct (truthy f); cbn [negb]; [|discriminate].
    rewrite download_from_spaces_spec.
    destruct (endpoint_state w'); [destruct (objects w' !! _)|..]; discriminate.
  - unfold verify_consciousness. unfold_M.
    destruct (UUID_parses v); cbn [negb]; [|discriminate].
    destruct (truthy f); cbn [negb]; [|discriminate].
    rewrite download_from_spaces_spec.
    destruct (endpoint_state w'); [destruct (objects w' !! _)|..];
      cbn [fst snd]; try discriminate.
    rewrite El. destruct (truthy _); discriminate.
Qed.

(** ** Pruning, in every case *)

(** X22.  bastion_cron.py, lines 203-219.  Pruning always comes to its end,
    also when there is no trail; what it leaves is a suffix of what it
    found, of at most 1000 lines; and pruning again changes nothing. *)
Theorem cleanup_is_idempotent (w : world) :
  let w1 := (cleanup_old_logs w).2 in
  cleanup_old_logs w = (Returns tt, w1)
  /\ (length (default [] (integrity_log w1)) <= 1000)%nat
  /\ (exists dropped,
        default [] (integrity_log w) = dropped ++ default [] (integrity_log w1))
  /\ (integrity_log w = None -> integrity_log w1 = None)
  /\ cleanup_old_logs w1 = (Returns tt, w1).
Proof.
  cbv zeta. rewrite (cleanup_old_logs_spec w). cbn [snd].
  split; [reflexivity|].
  destruct (Nat.ltb_spec 1000 (length (default [] (integrity_log w)))) as [Hlt|Hle].
  - cbn [integrity_log set_integrity_log from_option id].
    split; [rewrite last_lines_length; lia|].
    split.
    { exists (take (length (default [] (integrity_log w)) - 1000)
                   (default [] (integrity_log w))).
      unfold last_lines. by rewrite take_drop. }
    split.
    { intros Hn. rewrite Hn in Hlt. simpl in Hlt. lia. }
    apply cleanup_small_log. cbn [integrity_log set_integrity_log from_option id].
    rewrite last_lines_length. lia.
  - split; [exact Hle|]. split; [by exists []|]. split; [done|].
    by apply cleanup_small_log.
Qed.

(** ** What the auditor writes for a blob that changed *)

(** X23.  bastion_cron.py, lines 101-127 with 47-65.  When the bucket
    serves, under the key of a catalogue entry, a blob whose digest is
    not the recorded one, the check returns False and appends exactly
    one record: status corrupted, error 'Hash mismatch', the recorded
    digest as original_hash and the blob's digest as current_hash.  Its
    integrity_verified is false, except when the recorded digest is the
    empty string: then it is null although the status is corrupted. *)
Theorem changed_blob_is_recorded_as_corrupted (w : world)
    (vault_id filename original_hash : string) (c : bytes) :
  endpoint_state w = Serving ->
  objects w !! object_key vault_id filename = Some c ->
  calculate_sha256 c <> original_hash ->
  exists w',
    verify_file_integrity vault_id filename original_hash w = (Returns false, w')
    /\ integrity_log w'
       = Some (default [] (integrity_log w)
               ++ [integrity_verification
                     (Check.Make (isoformat (utcnow w (clock_reads w))) vault_id
                        filename corrupted (Some original_hash)
                        (Some (calculate_sha256 c))
                        (if bool_decide (original_hash = "") then None
                         else Some false)
                        (Some "Hash mismatch"))])
    /\ audit_frame w w'.
Proof.
  intros Hs Ho Hne.
  assert (Hflag : integrity_flag (Some original_hash) (Some (calculate_sha256 c))
                  = if bool_decide (original_hash = "") then None else Some false).
  { unfold integrity_flag, truthy.
    destruct (decide (original_hash = "")) as [->|Hh]; [reflexivity|].
    rewrite (bool_decide_eq_false_2 _ Hh).
    rewrite (bool_decide_eq_false_2 _ (calculate_sha256_nonempty c)).
    cbn [negb andb]. f_equal. apply bool_decide_eq_false_2. congruence. }
  rewrite verify_file_integrity_spec.
  unfold check_passes, check_line. rewrite Hs, Ho.
  rewrite (bool_decide_eq_false_2 _ Hne), Hflag.
  eexists. split; [reflexivity|]. split; [reflexivity | by repeat split].
Qed.

Lemma changed_blob_is_recorded_as_corrupted_witness :
  exists w',
    verify_file_integrity (Demo.ids 0) "note.txt"
      (calculate_sha256 (Demo.ascii_bytes "hello12345"))
      (set_objects
         (<[object_key (Demo.ids 0) "note.txt" := Demo.ascii_bytes "hello12346"]>
            (objects Demo.stocked)) Demo.stocked)
    = (Returns false, w').
Proof.
  destruct (changed_blob_is_recorded_as_corrupted
              (set_objects
                 (<[object_key (Demo.ids 0) "note.txt"
                    := Demo.ascii_bytes "hello12346"]> (objects Demo.stocked))
                 Demo.stocked)
              (Demo.ids 0) "note.txt"
              (calculate_sha256 (Demo.ascii_bytes "hello12345"))
              (Demo.ascii_bytes "hello12346")) as (w' & H & _).
  - vm_compute. reflexivity.
  - vm_compute. reflexivity.
  - vm_compute. discriminate.
  - exists w'. exact H.
Defined.

(** ** Retrieval between two verifications *)

Lemma find_verify_match_snoc v f lines e :
  Entry.operation e = retrieve ->
  List.find (verify_match v f) (lines ++ [e]) = List.find (verify_match v f) lines.
Proof.
  intros He. induction lines as [|x lines IH]; simpl.
  - unfold verify_match. rewrite He.
    rewrite (bool_decide_eq_false_2 (retrieve = ingest)) by discriminate.
    by rewrite andb_false_r.
  - by rewrite IH.
Qed.

(** X24.  app.py, lines 158-217 with 219-274.  Reading does not disturb
    verification: if verification of (vault_id, filename) answers 200
    in some world, then after any retrieval request whatever (found or
    not, of this entry or of another, metadata-only or not) it still
    answers 200, with the same original hash, the same current hash
    and the same integrity_verified. *)
Theorem retrieval_does_not_change_verification (UUID_parses : string -> bool)
    (w : world) (vault_id : string) (filename : option string)
    (vault_id' : string) (filename' metadata_only' : option string)
    (r : VerifyReply.t) :
  (verify_consciousness UUID_parses vault_id filename w).1
  = Returns (json_verify r, 200%nat) ->
  exists r',
    (verify_consciousness UUID_parses vault_id filename
       (retrieve_consciousness UUID_parses vault_id' filename' metadata_only' w).2).1
    = Returns (json_verify r', 200%nat)
    /\ VerifyReply.original_hash r' = VerifyReply.original_hash r
    /\ VerifyReply.current_hash r' = VerifyReply.current_hash r
    /\ VerifyReply.integrity_verified r' = VerifyReply.integrity_verified r
    /\ VerifyReply.file_size r' = VerifyReply.file_size r.
Proof.
  set (w' := (retrieve_consciousness UUID_parses vault_id' filename'
                                     metadata_only' w).2).
  assert (Hfr : objects w' = objects w /\ endpoint_state w' = endpoint_state w
                /\ (vault_log w' = vault_log w
                    \/ exists e, vault_log w' = Some (default [] (vault_log w) ++ [e])
                                 /\ Entry.operation e = retrieve)).
  { subst w'. unfold retrieve_consciousness. unfold_M.
    destruct (UUID_parses vault_id'); simpl; [|by auto].
    destruct (bool_decide (lower _ = "true")); simpl.
    { destruct (vault_log w) as [lines|] eqn:E; simpl; [|by rewrite E; auto].
      destruct (List.find _ lines); simpl; rewrite E; auto. }
    destruct (truthy filename'); simpl; [|by auto].
    rewrite download_from_spaces_spec.
    destruct (endpoint_state w) eqn:Es; simpl; [destruct (objects w !! _)|..];
      simpl; (split; [done|]); (split; [done|]); eauto. }
  clearbody w'. destruct Hfr as (Ho & He & Hl).
  unfold verify_consciousness. unfold_M.
  destruct (UUID_parses vault_id); cbn [negb]; [|discriminate].
  destruct (truthy filename); cbn [negb]; [|discriminate].
  rewrite !download_from_spaces_spec, He, Ho.
  destruct (endpoint_state w); [|discriminate..].
  destruct (objects w !! _) as [c|]; cbn [fst snd]; [|discriminate].
  destruct (vault_log w) as [lines|] eqn:El; [|discriminate].
  assert (Hfind : exists lines',
             vault_log w' = Some lines'
             /\ List.find (verify_match vault_id (default "" filename)) lines'
                = List.find (verify_match vault_id (default "" filename)) lines).
  { destruct Hl as [->|(e & -> & Hop)]; [by eexists|].
    eexists. split; [reflexivity|]. by apply find_verify_match_snoc. }
  destruct Hfind as (lines' & -> & ->).
  destruct (truthy _); cbn [negb fst]; [|discriminate].
  intros [= <-]. eexists. split; [reflexivity|]. repeat split.
Qed.

Lemma retrieval_does_not_change_verification_witness :
  exists r',
    (verify_consciousness Demo.canonical_uuid (Demo.ids 0) (Some "note.txt")
       (retrieve_consciousness Demo.canonical_uuid (Demo.ids 0) (Some "note.txt")
                               None Demo.stocked).2).1
    = Returns (json_verify r', 200%nat)
    /\ VerifyReply.integrity_verified r' = true.
Proof.
  destruct (retrieval_does_not_change_verification Demo.canonical_uuid Demo.stocked
              (Demo.ids 0) (Some "note.txt") (Demo.ids 0) (Some "note.txt") None
              (VerifyReply.Make (Demo.ids 0) "note.txt"
                 (calculate_sha256 (Demo.ascii_bytes "hello12345"))
                 (calculate_sha256 (Demo.ascii_bytes "hello12345")) true 10
                 (isoformat (Demo.clock 2))))
    as (r' & Hv & _ & _ & Hi & _).
  - vm_compute. reflexivity.
  - exists r'. split; [exact Hv | exact Hi].
Defined.

(** ** The hasher against the published test vectors *)

Example sha256_of_abc :
  calculate_sha256 (Demo.ascii_bytes "abc")
  = "ba7816bf8f01cfea414140de5dae2223b00361a396177a9cb410ff61f20015ad".
Proof. vm_compute. reflexivity. Qed.

Example sha256_of_nothing :
  calculate_sha256 []
  = "e3b0c44298fc1c149afbf4c8996fb92427ae41e4649b934ca495991b7852b855".
Proof. vm_compute. reflexivity. Qed.

Example sha256_of_two_blocks :
  calculate_sha256
    (Demo.ascii_bytes "abcdbcdecdefdefgefghfghighijhijkijkljklmklmnlmnomnopnopq")
  = "248d6a61d20638b8e5c026930c3e6039a33ce45964ff2167f6ecedd419db06c1".
Proof. vm_compute. reflexivity. Qed.
